(** * DuChat: message-list synchronisation and unread tracking

    A shallow embedding of the two React components that hold the logic
    of the client:

    - [ConversationList] (conversation list, unread flags, chat creation),
    - [Chat] (message thread: refresh load, push handler, poll fallback,
      optimistic send).

    JavaScript strings are sequences of UTF-16 code units, timestamps are
    the millisecond values that [new Date(s).getTime()] yields, the hosted
    database is an explicit [Store] value, and every handler is a function
    in a small state monad over the environment (store, scripted request
    outcomes, request trace, alerts, timers, clock) and the component's
    own [useState] cells.  A handler is run as one atomic step: the
    interleaving of two handlers at an [await] is not modelled. *)

From Stdlib Require Import ZArith NArith List Bool Lia.
From Stdlib Require Import Sorted Permutation.
From Stdlib Require String Ascii DecimalString.
Import String.StringSyntax.
Open Scope string_scope.
Open Scope list_scope.
Import ListNotations.

Set Implicit Arguments.

(** ** JavaScript strings *)

Definition jsstring := list N.

Module Js.

(** A literal of the source, as code units (ASCII only). *)
Definition u (s : String.string) : jsstring :=
  map Ascii.N_of_ascii (String.list_ascii_of_string s).

(** [a === b] on strings. *)
Fixpoint eqb (a b : jsstring) : bool :=
  match a, b with
  | [], [] => true
  | x :: a', y :: b' => N.eqb x y && eqb a' b'
  | _, _ => false
  end.

(** [!!s]: only the empty string is falsy. *)
Definition truthy (s : jsstring) : bool :=
  match s with [] => false | _ :: _ => true end.

(** [a || b] where each side is a string or [undefined]/[null]. *)
Definition orElse (a b : option jsstring) : option jsstring :=
  match a with
  | Some s => if truthy s then a else b
  | None => b
  end.

(** [a || 'literal'] *)
Definition orDefault (a : option jsstring) (d : jsstring) : jsstring :=
  match a with
  | Some s => if truthy s then s else d
  | None => d
  end.

(** ECMAScript WhiteSpace and LineTerminator code units, the ones
    [String.prototype.trim] strips. *)
Definition isWhiteSpace (c : N) : bool :=
  ((9 <=? c) && (c <=? 13)
   || (c =? 32) || (c =? 160) || (c =? 5760)
   || (8192 <=? c) && (c <=? 8202)
   || (c =? 8232) || (c =? 8233) || (c =? 8239) || (c =? 8287)
   || (c =? 12288) || (c =? 65279))%N.

Fixpoint trimStart (s : jsstring) : jsstring :=
  match s with
  | [] => []
  | c :: r => if isWhiteSpace c then trimStart r else s
  end.

Definition trimEnd (s : jsstring) : jsstring := rev (trimStart (rev s)).

Definition trim (s : jsstring) : jsstring := trimEnd (trimStart s).

(** [`${n}`] for an integral number below 1e21. *)
Definition ofZ (z : Z) : jsstring := u (DecimalString.NilZero.string_of_int (Z.to_int z)).

Fixpoint startsWith (p s : jsstring) : bool :=
  match p, s with
  | [], _ => true
  | x :: p', y :: s' => N.eqb x y && startsWith p' s'
  | _ :: _, [] => false
  end.

End Js.

Definition Id := jsstring.
Definition Timestamp := Z.
Bind Scope Z_scope with Timestamp.

Definition GLOBAL_CONVERSATION_ID : Id :=
  Js.u "00000000-0000-0000-0000-000000000001".

(** ** Stable sorting

    [Array.prototype.sort] and the store's [ORDER BY] are modelled by a
    stable insertion sort: [le a b] says that [a] may stay in front of
    [b]. *)

Section Sorting.
Variable A : Type.
Variable le : A -> A -> bool.

Fixpoint insertSorted (x : A) (l : list A) : list A :=
  match l with
  | [] => [x]
  | y :: r => if le x y then x :: l else y :: insertSorted x r
  end.

Definition stableSort (l : list A) : list A :=
  fold_right insertSorted [] l.
End Sorting.

(** ** The hosted store *)

Module Db.

Inductive Role := admin | member.

Record Profile := {
  profile_id : Id;
  profile_username : option jsstring;
  profile_display_name : option jsstring;
  profile_email : option jsstring
}.

Record ConversationRow := {
  conv_id : Id;
  conv_name : option jsstring;
  conv_is_group : bool;
  conv_updated_at : Timestamp
}.

(** [part_role = None] is a row inserted without a role (column default). *)
Record ParticipantRow := {
  part_conversation_id : Id;
  part_user_id : Id;
  part_role : option Role;
  part_last_read_at : option Timestamp
}.

Record MessageRow := {
  row_id : Id;
  row_conversation_id : Id;
  row_sender_id : Id;
  row_content : jsstring;
  row_created_at : Timestamp;
  row_message_type : jsstring
}.

Record Store := {
  profiles : list Profile;
  conversations : list ConversationRow;
  conversation_participants : list ParticipantRow;
  messages : list MessageRow;
  next_id : N
}.

(** The id the store gives the next inserted row.  The hosted store
    draws a random UUID; the model draws from a counter. *)
Definition uuid (n : N) : Id := Js.u "uuid-" ++ Js.ofZ (Z.of_N n).

Definition findConversation (s : Store) (cid : Id) : option ConversationRow :=
  find (fun c => Js.eqb (conv_id c) cid) (conversations s).

Definition findProfile (s : Store) (uid : Id) : option Profile :=
  find (fun p => Js.eqb (profile_id p) uid) (profiles s).

(** [from('conversation_participants')
      .select('conversation_id, last_read_at, conversations!inner(...)')
      .eq('user_id', uid)] *)
Definition participantsOfUser (uid : Id) (s : Store)
  : list (ParticipantRow * ConversationRow) :=
  flat_map
    (fun p =>
       if Js.eqb (part_user_id p) uid then
         match findConversation s (part_conversation_id p) with
         | Some c => [(p, c)]
         | None => []
         end
       else [])
    (conversation_participants s).

(** [.select('user_id, profiles!inner(...)').eq('conversation_id', cid)] *)
Definition roster (cid : Id) (s : Store) : list (Id * Profile) :=
  flat_map
    (fun p =>
       if Js.eqb (part_conversation_id p) cid then
         match findProfile s (part_user_id p) with
         | Some pr => [(part_user_id p, pr)]
         | None => []
         end
       else [])
    (conversation_participants s).

Definition messagesOf (cid : Id) (s : Store) : list MessageRow :=
  filter (fun m => Js.eqb (row_conversation_id m) cid) (messages s).

(** [.order('created_at', { ascending: true })] *)
Definition messagesAscending (cid : Id) (s : Store) : list MessageRow :=
  stableSort (fun a b => row_created_at a <=? row_created_at b)%Z
             (messagesOf cid s).

(** [.order('created_at', { ascending: false }).limit(1).maybeSingle()];
    among rows of equal [created_at] the model keeps table order. *)
Definition lastMessage (cid : Id) (s : Store) : option MessageRow :=
  hd_error
    (stableSort (fun a b => row_created_at b <=? row_created_at a)%Z
                (messagesOf cid s)).

(** [.or(`user_id.eq.${me},user_id.eq.${other}`)] with
    [conversations!inner(is_group)] *)
Definition pairParticipants (me other : Id) (s : Store) : list (Id * bool) :=
  flat_map
    (fun p =>
       if Js.eqb (part_user_id p) me || Js.eqb (part_user_id p) other then
         match findConversation s (part_conversation_id p) with
         | Some c => [(part_conversation_id p, conv_is_group c)]
         | None => []
         end
       else [])
    (conversation_participants s).

(** [.update({ last_read_at: t }).eq('conversation_id', cid)
      .eq('user_id', uid)] *)
Definition updateLastRead (cid uid : Id) (t : Timestamp) (s : Store) : Store :=
  {| profiles := profiles s;
     conversations := conversations s;
     conversation_participants :=
       map (fun p =>
              if Js.eqb (part_conversation_id p) cid
                 && Js.eqb (part_user_id p) uid
              then {| part_conversation_id := part_conversation_id p;
                      part_user_id := part_user_id p;
                      part_role := part_role p;
                      part_last_read_at := Some t |}
              else p)
           (conversation_participants s);
     messages := messages s;
     next_id := next_id s |}.

(** [from('conversations').insert({ is_group, name }).select().single()] *)
Definition insertConversation (is_group : bool) (name : option jsstring)
           (t : Timestamp) (s : Store) : ConversationRow * Store :=
  let c := {| conv_id := uuid (next_id s);
              conv_name := name;
              conv_is_group := is_group;
              conv_updated_at := t |} in
  (c, {| profiles := profiles s;
         conversations := conversations s ++ [c];
         conversation_participants := conversation_participants s;
         messages := messages s;
         next_id := N.succ (next_id s) |}).

Definition insertParticipants (rows : list ParticipantRow) (s : Store) : Store :=
  {| profiles := profiles s;
     conversations := conversations s;
     conversation_participants := conversation_participants s ++ rows;
     messages := messages s;
     next_id := next_id s |}.

(** [from('messages').insert({ conversation_id, sender_id, content,
    message_type })]; the store stamps the id and [created_at]. *)
Definition insertMessage (cid sender : Id) (content type : jsstring)
           (t : Timestamp) (s : Store) : Store :=
  {| profiles := profiles s;
     conversations := conversations s;
     conversation_participants := conversation_participants s;
     messages := messages s ++
                 [{| row_id := uuid (next_id s);
                     row_conversation_id := cid;
                     row_sender_id := sender;
                     row_content := content;
                     row_created_at := t;
                     row_message_type := type |}];
     next_id := N.succ (next_id s) |}.

End Db.

Arguments Db.uuid : simpl never.


(** ** Environment of a handler

    Every [await supabase...] is one [request].  The store stamps
    inserted rows with the same clock [now] that the client reads.  Whether it succeeds is
    read from the script [outcomes] (an exhausted script means success);
    a failed request leaves the store as it was and yields
    [{ data: null, error }]. *)

Inductive Outcome := Succeeds | Fails (message : jsstring).

Inductive Result (A : Type) :=
| Data (data : A)
| Error (message : jsstring).

Arguments Data {A} data.
Arguments Error {A} message.

Inductive Request :=
| SelectParticipantsOfUser (uid : Id)
| SelectRoster (cid : Id)
| SelectLastMessage (cid : Id)
| UpdateLastRead (cid uid : Id) (t : Timestamp)
| SelectPairParticipants (me other : Id)
| InsertConversation (is_group : bool) (name : option jsstring)
| InsertParticipants (rows : list Db.ParticipantRow)
| SelectMessages (cid : Id)
| SelectMessageIds (cid : Id)
| InsertMessage (cid sender : Id) (content type : jsstring).

Record Env := {
  store : Db.Store;
  outcomes : list Outcome;
  trace : list Request;
  alerts : list jsstring;
  timers : list Z;
  now : Timestamp
}.

Definition nextOutcome (os : list Outcome) : Outcome * list Outcome :=
  match os with
  | [] => (Succeeds, [])
  | o :: rest => (o, rest)
  end.

Section Handlers.
Variable U : Type.

Definition M (A : Type) : Type := Env * U -> A * (Env * U).

Definition ret {A} (a : A) : M A := fun w => (a, w).

Definition bind {A B} (m : M A) (k : A -> M B) : M B :=
  fun w => let (a, w') := m w in k a w'.

(** Reading the component state and [setX(prev => f prev)]. *)
Definition getState : M U := fun w => (snd w, w).

Definition setState (f : U -> U) : M unit :=
  fun w => (tt, (fst w, f (snd w))).

(** [new Date()] / [Date.now()] *)
Definition clock : M Timestamp := fun w => (now (fst w), w).

Definition alert (text : jsstring) : M unit :=
  fun w =>
    let e := fst w in
    (tt, ({| store := store e; outcomes := outcomes e; trace := trace e;
             alerts := alerts e ++ [text]; timers := timers e;
             now := now e |}, snd w)).

(** [setTimeout(() => scrollToBottom(), delay)]; only the pending timer
    is recorded, scrolling itself touches no state. *)
Definition setTimeout (delay : Z) : M unit :=
  fun w =>
    let e := fst w in
    (tt, ({| store := store e; outcomes := outcomes e; trace := trace e;
             alerts := alerts e; timers := timers e ++ [delay];
             now := now e |}, snd w)).

Definition request {A} (r : Request) (op : Db.Store -> A * Db.Store)
  : M (Result A) :=
  fun w =>
    let e := fst w in
    let (o, rest) := nextOutcome (outcomes e) in
    match o with
    | Fails message =>
        (Error message,
         ({| store := store e; outcomes := rest; trace := trace e ++ [r];
             alerts := alerts e; timers := timers e; now := now e |},
          snd w))
    | Succeeds =>
        let (a, s') := op (store e) in
        (Data a,
         ({| store := s'; outcomes := rest; trace := trace e ++ [r];
             alerts := alerts e; timers := timers e; now := now e |},
          snd w))
    end.

(** A read-only query. *)
Definition query {A} (r : Request) (q : Db.Store -> A) : M (Result A) :=
  request r (fun s => (q s, s)).

(** A write whose response body is not used. *)
Definition mutate (r : Request) (f : Db.Store -> Db.Store) : M (Result unit) :=
  request r (fun s => (tt, f s)).

End Handlers.

Arguments ret {U A} a.
Arguments bind {U A B} m k.
Arguments getState {U}.
Arguments setState {U} f.
Arguments clock {U}.
Arguments alert {U} text.
Arguments setTimeout {U} delay.
Arguments request {U A} r op.
Arguments query {U A} r q.
Arguments mutate {U} r f.

Declare Scope handler_scope.
Delimit Scope handler_scope with handler.
Notation "x <- m ;; k" := (bind m (fun x => k))
  (at level 61, m at next level, right associativity) : handler_scope.
Notation "m ;; k" := (bind m (fun _ => k))
  (at level 61, right associativity) : handler_scope.

(** The state a handler leaves, and the environment it leaves. *)
Definition stateAfter {U A} (m : M U A) (e : Env) (ui : U) : U :=
  snd (snd (m (e, ui))).
Definition envAfter {U A} (m : M U A) (e : Env) (ui : U) : Env :=
  fst (snd (m (e, ui))).

Record User := {
  user_id : Id;
  user_email : option jsstring;
  user_display_name : option jsstring
}.

(** ** The message thread: component [Chat] *)

Module Chat.

Record Sender := {
  display_name : option jsstring;
  email : option jsstring
}.

(** A message object of the displayed list.  Rows selected by
    [loadMessages] carry no [conversation_id]; the optimistic entry
    does. *)
Record Message := {
  id : Id;
  content : jsstring;
  sender_id : Id;
  conversation_id : option Id;
  created_at : Timestamp;
  message_type : jsstring;
  sender : option Sender
}.

(** The [useState] cells, and the two [let] variables of the
    subscription effect ([isSubscribed], [lastMessageCount]). *)
Record State := {
  messages : list Message;
  newMessage : jsstring;
  loading : bool;
  isSubscribed : bool;
  lastMessageCount : nat
}.

Definition initial : State :=
  {| messages := []; newMessage := []; loading := true;
     isSubscribed := false; lastMessageCount := 0 |}.

Definition setMessages (f : list Message -> list Message) (st : State) : State :=
  {| messages := f (messages st); newMessage := newMessage st;
     loading := loading st; isSubscribed := isSubscribed st;
     lastMessageCount := lastMessageCount st |}.

Definition setNewMessage (v : jsstring) (st : State) : State :=
  {| messages := messages st; newMessage := v;
     loading := loading st; isSubscribed := isSubscribed st;
     lastMessageCount := lastMessageCount st |}.

Definition setLoading (v : bool) (st : State) : State :=
  {| messages := messages st; newMessage := newMessage st;
     loading := v; isSubscribed := isSubscribed st;
     lastMessageCount := lastMessageCount st |}.

Definition setIsSubscribed (v : bool) (st : State) : State :=
  {| messages := messages st; newMessage := newMessage st;
     loading := loading st; isSubscribed := v;
     lastMessageCount := lastMessageCount st |}.

Definition setLastMessageCount (v : nat) (st : State) : State :=
  {| messages := messages st; newMessage := newMessage st;
     loading := loading st; isSubscribed := isSubscribed st;
     lastMessageCount := v |}.

(** One selected row:
    [id, content, sender_id, created_at, message_type,
     sender:profiles(display_name, email)]. *)
Definition selectRow (s : Db.Store) (r : Db.MessageRow) : Message :=
  {| id := Db.row_id r;
     content := Db.row_content r;
     sender_id := Db.row_sender_id r;
     conversation_id := None;
     created_at := Db.row_created_at r;
     message_type := Db.row_message_type r;
     sender :=
       option_map
         (fun p => {| display_name := Db.profile_display_name p;
                      email := Db.profile_email p |})
         (Db.findProfile s (Db.row_sender_id r)) |}.

Definition selectMessages (cid : Id) (s : Db.Store) : list Message :=
  map (selectRow s) (Db.messagesAscending cid s).

Inductive Status := SUBSCRIBED | CLOSED | CHANNEL_ERROR | TIMED_OUT.

(** The poll timer fires every 3000 ms. *)
Definition pollPeriod : Z := 3000.

(** First firing of a timer started at [t0] that comes strictly after
    the instant [t]. *)
Definition nextPoll (t0 t : Z) : Z :=
  (t0 + pollPeriod * ((t - t0) / pollPeriod + 1))%Z.

Section Component.
Variable conversationId : Id.
Variable user : User.

Local Open Scope handler_scope.

(** [if (!error && data) { setMessages(data); setLoading(false);
     setTimeout(scrollToBottom, 100) }] *)
Definition applyLoad (r : Result (list Message)) : M State unit :=
  match r with
  | Data data =>
      setState (setMessages (fun _ => data)) ;;
      setState (setLoading false) ;;
      setTimeout 100
  | Error _ => ret tt
  end.

Definition loadMessages : M State unit :=
  r <- query (SelectMessages conversationId) (selectMessages conversationId) ;;
  applyLoad r.

(** Body of the subscription effect up to the creation of the timer. *)
Definition mount : M State unit :=
  if negb (Js.truthy conversationId) then ret tt
  else
    loadMessages ;;
    setState (setIsSubscribed false) ;;
    setState (setLastMessageCount 0).

(** Callback of [.subscribe(status => ...)]. *)
Definition onStatus (status : Status) : M State unit :=
  match status with
  | SUBSCRIBED => setState (setIsSubscribed true)
  | CLOSED | CHANNEL_ERROR => setState (setIsSubscribed false)
  | TIMED_OUT => ret tt
  end.

(** Callback of the [postgres_changes] INSERT subscription. *)
Definition onInsert : M State unit :=
  st <- getState ;;
  if isSubscribed st then loadMessages else ret tt.

(** Callback of [setInterval(..., 3000)]. *)
Definition pollTick : M State unit :=
  r <- query (SelectMessageIds conversationId)
             (fun s => map Db.row_id (Db.messagesOf conversationId s)) ;;
  let currentCount := match r with Data data => length data | Error _ => 0 end in
  st <- getState ;;
  (if (0 <? lastMessageCount st)%nat && (lastMessageCount st <? currentCount)%nat
   then loadMessages
   else ret tt) ;;
  setState (setLastMessageCount currentCount).

Definition tempId (t : Timestamp) : Id := Js.u "temp-" ++ Js.ofZ t.

Definition tempMessage (messageText : jsstring) (t : Timestamp) : Message :=
  {| id := tempId t;
     content := messageText;
     sender_id := user_id user;
     conversation_id := Some conversationId;
     created_at := t;
     message_type := Js.u "text";
     sender := Some {| display_name :=
                         Js.orElse (user_display_name user) (user_email user);
                       email := user_email user |} |}.

(** [e.preventDefault()] acts on the DOM event only and is left out. *)
Definition sendMessage : M State unit :=
  st <- getState ;;
  if negb (Js.truthy (Js.trim (newMessage st))) then ret tt
  else
    let messageText := Js.trim (newMessage st) in
    t <- clock ;;
    let tmp := tempMessage messageText t in
    setState (setMessages (fun prev => prev ++ [tmp])) ;;
    setTimeout 50 ;;
    setState (setNewMessage []) ;;
    r <- mutate (InsertMessage conversationId (user_id user) messageText
                               (Js.u "text"))
                (Db.insertMessage conversationId (user_id user)
                                  messageText (Js.u "text") t) ;;
    match r with
    | Error _ =>
        alert (Js.u "Failed to send message") ;;
        setState (setMessages
                    (filter (fun msg => negb (Js.eqb (id msg) (id tmp)))))
    | Data _ => ret tt
    end.

End Component.
End Chat.

(** ** The conversation list: component [ConversationList] *)

Module ConversationList.

(** An entry of the displayed list: the selected conversation row and
    the fields [loadConversations] attaches to it. *)
Record Conversation := {
  id : Id;
  name : option jsstring;
  is_group : bool;
  updated_at : Timestamp;
  displayName : jsstring;
  otherUserId : option Id;
  participantCount : nat;
  hasUnread : bool;
  lastMessageTime : Timestamp
}.

(** The [useState] cells; [selectedConversation] is the cell of [App]
    that the [onSelectConversation] prop writes. *)
Record State := {
  conversations : list Conversation;
  allUsers : list Db.Profile;
  showNewChatModal : bool;
  showGroupChatModal : bool;
  selectedUsers : list Id;
  groupName : jsstring;
  loading : bool;
  showMenu : bool;
  selectedConversation : option Id
}.

Definition initial : State :=
  {| conversations := []; allUsers := []; showNewChatModal := false;
     showGroupChatModal := false; selectedUsers := []; groupName := [];
     loading := true; showMenu := false; selectedConversation := None |}.

Definition setConversations (f : list Conversation -> list Conversation)
           (st : State) : State :=
  {| conversations := f (conversations st); allUsers := allUsers st;
     showNewChatModal := showNewChatModal st;
     showGroupChatModal := showGroupChatModal st;
     selectedUsers := selectedUsers st; groupName := groupName st;
     loading := loading st; showMenu := showMenu st;
     selectedConversation := selectedConversation st |}.

Definition setShowNewChatModal (v : bool) (st : State) : State :=
  {| conversations := conversations st; allUsers := allUsers st;
     showNewChatModal := v;
     showGroupChatModal := showGroupChatModal st;
     selectedUsers := selectedUsers st; groupName := groupName st;
     loading := loading st; showMenu := showMenu st;
     selectedConversation := selectedConversation st |}.

Definition setShowGroupChatModal (v : bool) (st : State) : State :=
  {| conversations := conversations st; allUsers := allUsers st;
     showNewChatModal := showNewChatModal st;
     showGroupChatModal := v;
     selectedUsers := selectedUsers st; groupName := groupName st;
     loading := loading st; showMenu := showMenu st;
     selectedConversation := selectedConversation st |}.

Definition setSelectedUsers (f : list Id -> list Id) (st : State) : State :=
  {| conversations := conversations st; allUsers := allUsers st;
     showNewChatModal := showNewChatModal st;
     showGroupChatModal := showGroupChatModal st;
     selectedUsers := f (selectedUsers st); groupName := groupName st;
     loading := loading st; showMenu := showMenu st;
     selectedConversation := selectedConversation st |}.

Definition setGroupName (v : jsstring) (st : State) : State :=
  {| conversations := conversations st; allUsers := allUsers st;
     showNewChatModal := showNewChatModal st;
     showGroupChatModal := showGroupChatModal st;
     selectedUsers := selectedUsers st; groupName := v;
     loading := loading st; showMenu := showMenu st;
     selectedConversation := selectedConversation st |}.

Definition setLoading (v : bool) (st : State) : State :=
  {| conversations := conversations st; allUsers := allUsers st;
     showNewChatModal := showNewChatModal st;
     showGroupChatModal := showGroupChatModal st;
     selectedUsers := selectedUsers st; groupName := groupName st;
     loading := v; showMenu := showMenu st;
     selectedConversation := selectedConversation st |}.

Definition onSelectConversation (cid : Id) (st : State) : State :=
  {| conversations := conversations st; allUsers := allUsers st;
     showNewChatModal := showNewChatModal st;
     showGroupChatModal := showGroupChatModal st;
     selectedUsers := selectedUsers st; groupName := groupName st;
     loading := loading st; showMenu := showMenu st;
     selectedConversation := Some cid |}.

(** [{ ...conv, hasUnread: false }] *)
Definition withRead (conv : Conversation) : Conversation :=
  {| id := id conv; name := name conv; is_group := is_group conv;
     updated_at := updated_at conv; displayName := displayName conv;
     otherUserId := otherUserId conv;
     participantCount := participantCount conv;
     hasUnread := false; lastMessageTime := lastMessageTime conv |}.

(** [{ ...conv, hasUnread: true, updated_at: created_at }] *)
Definition withUnread (created_at : Timestamp) (conv : Conversation)
  : Conversation :=
  {| id := id conv; name := name conv; is_group := is_group conv;
     updated_at := created_at; displayName := displayName conv;
     otherUserId := otherUserId conv;
     participantCount := participantCount conv;
     hasUnread := true; lastMessageTime := lastMessageTime conv |}.

(** The block "Determine if there are unread messages" of
    [loadConversations]: [lastMessage] is the selected
    [created_at, sender_id] of the most recent message, or [null]. *)
Definition unreadFlag (me : Id) (lastMessage : option Db.MessageRow)
           (lastReadAt : option Timestamp) : bool :=
  match lastMessage with
  | Some m =>
      let lastMessageTime := Db.row_created_at m in
      let lastReadTime := match lastReadAt with Some t => t | None => 0%Z end in
      negb (Js.eqb (Db.row_sender_id m) me)
      && (lastReadTime <? lastMessageTime)%Z
  | None => false
  end.

Definition globalLabel : jsstring :=
  [55356%N; 57101%N] ++ Js.u " Global Chat".

(** [Object.keys(conversationCounts)] lists string keys that are not
    array indices in insertion order; conversation ids are UUIDs, so
    the object is an association list in insertion order. *)
Fixpoint increment (k : Id) (counts : list (Id * nat)) : list (Id * nat) :=
  match counts with
  | [] => [(k, 1)]
  | (k', v) :: rest =>
      if Js.eqb k' k then (k', S v) :: rest
      else (k', v) :: increment k rest
  end.

Definition conversationCounts (rows : list (Id * bool)) : list (Id * nat) :=
  fold_left
    (fun counts p => if negb (snd p) then increment (fst p) counts else counts)
    rows [].

Definition findExisting (counts : list (Id * nat)) : option Id :=
  option_map fst (find (fun kv => Nat.eqb (snd kv) 2) counts).

(** [prev.includes(userId) ? prev.filter(id => id !== userId)
                             : [...prev, userId]] *)
Definition toggleUserSelection (userId : Id) (st : State) : State :=
  setSelectedUsers
    (fun prev =>
       if existsb (Js.eqb userId) prev
       then filter (fun i => negb (Js.eqb i userId)) prev
       else prev ++ [userId])
    st.

Section Component.
Variable user : User.

Local Open Scope handler_scope.

Definition markConversationAsRead (conversationId : Id) : M State unit :=
  if negb (Js.truthy conversationId) || negb (Js.truthy (user_id user))
  then ret tt
  else
    t <- clock ;;
    r <- mutate (UpdateLastRead conversationId (user_id user) t)
                (Db.updateLastRead conversationId (user_id user) t) ;;
    match r with
    | Error _ => ret tt
    | Data _ =>
        setState (setConversations
                    (map (fun conv =>
                            if Js.eqb (id conv) conversationId
                            then withRead conv else conv)))
    end.

Definition handleSelectConversation (conversationId : Id) : M State unit :=
  setState (onSelectConversation conversationId) ;;
  markConversationAsRead conversationId.

(** Callback of the subscription to every INSERT on [messages];
    [new] is [payload.new]. *)
Definition onMessageInsert (new : Db.MessageRow) : M State unit :=
  if negb (Js.eqb (Db.row_sender_id new) (user_id user)) then
    setState (setConversations
                (map (fun conv =>
                        if Js.eqb (id conv) (Db.row_conversation_id new)
                        then withUnread (Db.row_created_at new) conv
                        else conv)))
  else ret tt.

(** The callback of [data.map(async (item) => ...)]. *)
Definition enrich (item : Db.ParticipantRow * Db.ConversationRow)
  : M State (option Conversation) :=
  let conv := snd item in
  let lastReadAt := Db.part_last_read_at (fst item) in
  rp <- query (SelectRoster (Db.conv_id conv)) (Db.roster (Db.conv_id conv)) ;;
  match rp with
  | Error _ => ret None
  | Data participants =>
      rm <- query (SelectLastMessage (Db.conv_id conv))
                  (Db.lastMessage (Db.conv_id conv)) ;;
      let lastMessage :=
        match rm with Data m => m | Error _ => None end in
      let hasUnread := unreadFlag (user_id user) lastMessage lastReadAt in
      let otherUser :=
        find (fun p => negb (Js.eqb (Db.profile_id (snd p)) (user_id user)))
             participants in
      let oneToOne :=
        negb (Db.conv_is_group conv) && Nat.eqb (length participants) 2 in
      ret (Some
        {| id := Db.conv_id conv;
           name := Db.conv_name conv;
           is_group := Db.conv_is_group conv;
           updated_at := Db.conv_updated_at conv;
           displayName :=
             if oneToOne then
               Js.orDefault
                 (Js.orElse
                    (match otherUser with
                     | Some p => Db.profile_display_name (snd p)
                     | None => None
                     end)
                    (match otherUser with
                     | Some p => Db.profile_email (snd p)
                     | None => None
                     end))
                 (Js.u "Unknown")
             else if Js.eqb (Db.conv_id conv) GLOBAL_CONVERSATION_ID
             then globalLabel
             else
               Js.orDefault (Db.conv_name conv)
                 (Js.u "Group (" ++ Js.ofZ (Z.of_nat (length participants))
                       ++ Js.u ")");
           otherUserId :=
             if oneToOne then option_map (fun p => Db.profile_id (snd p)) otherUser
             else None;
           participantCount := length participants;
           hasUnread := hasUnread;
           lastMessageTime :=
             match lastMessage with
             | Some m => Db.row_created_at m
             | None => Db.conv_updated_at conv
             end |})
  end.

(** [Promise.all(data.map(...))]; the requests of one load are issued
    item by item. *)
Fixpoint enrichAll (data : list (Db.ParticipantRow * Db.ConversationRow))
  : M State (list (option Conversation)) :=
  match data with
  | [] => ret []
  | item :: rest =>
      c <- enrich item ;;
      cs <- enrichAll rest ;;
      ret (c :: cs)
  end.

Definition notNull (cs : list (option Conversation)) : list Conversation :=
  flat_map (fun c => match c with Some v => [v] | None => [] end) cs.

(** [.sort((a, b) => new Date(b.lastMessageTime) - new Date(a.lastMessageTime))] *)
Definition byRecency (cs : list Conversation) : list Conversation :=
  stableSort (fun a b => (lastMessageTime b <=? lastMessageTime a)%Z) cs.

Definition loadConversations : M State unit :=
  r <- query (SelectParticipantsOfUser (user_id user))
             (Db.participantsOfUser (user_id user)) ;;
  match r with
  | Error _ => setState (setLoading false)
  | Data data =>
      conversationsWithDetails <- enrichAll data ;;
      let validConversations := notNull conversationsWithDetails in
      setState (setConversations (fun _ => byRecency validConversations)) ;;
      setState (setLoading false)
  end.

(** The [try] block of [startDirectChat] after the search for an
    existing conversation; [Error] is the thrown error. *)
Definition createDirectChat (otherUserId : Id) : M State (Result unit) :=
  t <- clock ;;
  rc <- request (InsertConversation false None)
                (Db.insertConversation false None t) ;;
  match rc with
  | Error message => ret (Error message)
  | Data newConv =>
      let rows :=
        [ {| Db.part_conversation_id := Db.conv_id newConv;
             Db.part_user_id := user_id user;
             Db.part_role := None;
             Db.part_last_read_at := Some t |};
          {| Db.part_conversation_id := Db.conv_id newConv;
             Db.part_user_id := otherUserId;
             Db.part_role := None;
             Db.part_last_read_at := Some t |} ] in
      rp <- mutate (InsertParticipants rows) (Db.insertParticipants rows) ;;
      match rp with
      | Error message => ret (Error message)
      | Data _ =>
          handleSelectConversation (Db.conv_id newConv) ;;
          loadConversations ;;
          setState (setShowNewChatModal false) ;;
          ret (Data tt)
      end
  end.

(** The [catch] block of [startDirectChat]. *)
Definition createOrAlert (otherUserId : Id) : M State unit :=
  thrown <- createDirectChat otherUserId ;;
  match thrown with
  | Error message =>
      alert (Js.u "Failed to start conversation: "
                  ++ Js.orDefault (Some message) (Js.u "Unknown error"))
  | Data _ => ret tt
  end.

Definition startDirectChat (otherUserId : Id) : M State unit :=
  r <- query (SelectPairParticipants (user_id user) otherUserId)
             (Db.pairParticipants (user_id user) otherUserId) ;;
  let existingConvId :=
    match r with
    | Data (p :: ps) => findExisting (conversationCounts (p :: ps))
    | _ => None
    end in
  match existingConvId with
  | Some convId =>
      if Js.truthy convId then
        handleSelectConversation convId ;;
        setState (setShowNewChatModal false)
      else createOrAlert otherUserId
  | None => createOrAlert otherUserId
  end.

Definition createGroupChat : M State unit :=
  st <- getState ;;
  if (length (selectedUsers st) <? 2)%nat then
    alert (Js.u "Please select at least 2 users for a group chat")
  else if negb (Js.truthy (Js.trim (groupName st))) then
    alert (Js.u "Please enter a group name")
  else
    t <- clock ;;
    rc <- request (InsertConversation true (Some (Js.trim (groupName st))))
                  (Db.insertConversation true (Some (Js.trim (groupName st))) t) ;;
    match rc with
    | Error _ => alert (Js.u "Failed to create group chat")
    | Data newConv =>
        let participantsToAdd :=
          {| Db.part_conversation_id := Db.conv_id newConv;
             Db.part_user_id := user_id user;
             Db.part_role := Some Db.admin;
             Db.part_last_read_at := Some t |}
          :: map (fun userId =>
                    {| Db.part_conversation_id := Db.conv_id newConv;
                       Db.part_user_id := userId;
                       Db.part_role := Some Db.member;
                       Db.part_last_read_at := Some t |})
                 (selectedUsers st) in
        rp <- mutate (InsertParticipants participantsToAdd)
                     (Db.insertParticipants participantsToAdd) ;;
        match rp with
        | Error _ => alert (Js.u "Failed to create group chat")
        | Data _ =>
            handleSelectConversation (Db.conv_id newConv) ;;
            loadConversations ;;
            setState (setShowGroupChatModal false) ;;
            setState (setSelectedUsers (fun _ => [])) ;;
            setState (setGroupName [])
        end
    end.

End Component.
End ConversationList.

(** ** Notions used by the statements *)

(** No request of the environment is scripted to fail. *)
Definition reliable (e : Env) : Prop :=
  Forall (fun o => o = Succeeds) (outcomes e).

(** Primary key of [messages]. *)
Definition uniqueMessageIds (s : Db.Store) : Prop :=
  NoDup (map Db.row_id (Db.messages s)).

(** Ids of optimistic entries start with [temp-]. *)
Definition isTemp (i : Id) : bool := Js.startsWith (Js.u "temp-") i.

Definition ascendingByCreatedAt (l : list Chat.Message) : Prop :=
  StronglySorted (fun a b => (Chat.created_at a <= Chat.created_at b)%Z) l.

Definition countContent (text : jsstring) (l : list Chat.Message) : nat :=
  length (filter (fun m => Js.eqb (Chat.content m) text) l).

Definition countPersisted (cid : Id) (text : jsstring) (s : Db.Store) : nat :=
  length (filter (fun m => Js.eqb (Db.row_content m) text)
                 (Db.messagesOf cid s)).

(** A run of refresh loads of one thread, each against the
    environment it meets. *)
Definition refreshes (cid : Id) (envs : list Env) (st : Chat.State)
  : Chat.State :=
  fold_left (fun st e => stateAfter (Chat.loadMessages cid) e st) envs st.

(** The unread flag as the data model words it: some message of the
    conversation is from another user and newer than [lastReadAt]. *)
Definition unreadBySpec (me : Id) (msgs : list Db.MessageRow)
           (lastReadAt : option Timestamp) : bool :=
  existsb
    (fun m =>
       negb (Js.eqb (Db.row_sender_id m) me)
       && (match lastReadAt with Some t => t | None => 0%Z end
           <? Db.row_created_at m)%Z)
    msgs.

(** How an entry relates to the participant row it was built from. *)
Definition builtFrom (user : User) (s : Db.Store)
           (item : Db.ParticipantRow * Db.ConversationRow)
           (conv : ConversationList.Conversation) : Prop :=
  ConversationList.id conv = Db.conv_id (snd item)
  /\ ConversationList.hasUnread conv
     = ConversationList.unreadFlag (user_id user)
         (Db.lastMessage (Db.conv_id (snd item)) s)
         (Db.part_last_read_at (fst item)).

(** Who takes part in what: the participant rows without their
    [role] and [last_read_at]. *)
Definition membership (s : Db.Store) : list (Id * Id) :=
  map (fun p => (Db.part_conversation_id p, Db.part_user_id p))
      (Db.conversation_participants s).

(** The id the store will give the next row is not in use. *)
Definition nextIdFresh (s : Db.Store) : Prop :=
  ~ In (Db.uuid (Db.next_id s)) (map Db.conv_id (Db.conversations s))
  /\ ~ In (Db.uuid (Db.next_id s)) (map fst (membership s)).

(** Conversation ids are not the empty string. *)
Definition conversationIdsNonEmpty (s : Db.Store) : Prop :=
  Forall (fun k => Js.truthy (fst k) = true) (membership s).

(** The conversation a call of [startDirectChat] would reuse. *)
Definition existingDirectChat (me other : Id) (s : Db.Store) : option Id :=
  ConversationList.findExisting
    (ConversationList.conversationCounts (Db.pairParticipants me other s)).

(** The participant rows without their [last_read_at]. *)
Definition enrolment (s : Db.Store) : list (Id * Id * option Db.Role) :=
  map (fun p => (Db.part_conversation_id p, Db.part_user_id p, Db.part_role p))
      (Db.conversation_participants s).

(** Most recent first. *)
Definition descendingByRecency (l : list ConversationList.Conversation) : Prop :=
  StronglySorted
    (fun a b => (ConversationList.lastMessageTime b
                 <= ConversationList.lastMessageTime a)%Z) l.

(** Number of non-group rows of conversation [k] among the rows of a
    search. *)
Definition nonGroupRows (k : Id) (rows : list (Id * bool)) : nat :=
  length (filter (fun r => Js.eqb (fst r) k && negb (snd r)) rows).

(** A string that neither starts nor ends with white space. *)
Definition trimmed (s : jsstring) : Prop :=
  (forall c r, s = c :: r -> Js.isWhiteSpace c = false)
  /\ (forall c r, s = r ++ [c] -> Js.isWhiteSpace c = false).

(** What a listed entry owes to the participant row it was built from,
    whether or not the request for the last message succeeded. *)
Definition entryOf (user : User) (s : Db.Store)
           (item : Db.ParticipantRow * Db.ConversationRow)
           (conv : ConversationList.Conversation) : Prop :=
  let c := snd item in
  ConversationList.id conv = Db.conv_id c
  /\ ConversationList.name conv = Db.conv_name c
  /\ ConversationList.is_group conv = Db.conv_is_group c
  /\ ConversationList.updated_at conv = Db.conv_updated_at c
  /\ ConversationList.participantCount conv
     = length (Db.roster (Db.conv_id c) s)
  /\ Js.truthy (ConversationList.displayName conv) = true
  /\ (ConversationList.hasUnread conv = true ->
      ConversationList.unreadFlag (user_id user)
        (Db.lastMessage (Db.conv_id c) s)
        (Db.part_last_read_at (fst item)) = true)
  /\ (ConversationList.lastMessageTime conv = Db.conv_updated_at c
      \/ exists m, Db.lastMessage (Db.conv_id c) s = Some m
                   /\ ConversationList.lastMessageTime conv
                      = Db.row_created_at m).

(** The count an object of [conversationCounts] holds under key [k]
    ([counts[k] || 0]). *)
Definition countOf (k : Id) (counts : list (Id * nat)) : nat :=
  match find (fun kv => Js.eqb (fst kv) k) counts with
  | Some kv => snd kv
  | None => 0
  end.

(** Text of the alert raised when [startDirectChat] throws. *)
Definition startFailure (reason : jsstring) : jsstring :=
  Js.u "Failed to start conversation: "
  ++ Js.orDefault (Some reason) (Js.u "Unknown error").


(** Order in which the list is rendered ([conversations.map]). *)
Definition displayedOrder (st : ConversationList.State) : list Id :=
  map ConversationList.id (ConversationList.conversations st).

(** ** Sample data

    Two users, one direct conversation between them and the global
    conversation; the rows of [messages] are not stored in time
    order. *)

Module Sample.

Definition alice : User :=
  {| user_id := Js.u "a11ce"; user_email := Some (Js.u "alice@example.org");
     user_display_name := None |}.

Definition bob : Id := Js.u "b0b".

Definition direct : Id := Js.u "c0ffee".

Definition profileOf (i : Id) (shown : option jsstring) : Db.Profile :=
  {| Db.profile_id := i; Db.profile_username := None;
     Db.profile_display_name := shown; Db.profile_email := None |}.

Definition row (i cid from text : String.string) (t : Timestamp)
  : Db.MessageRow :=
  {| Db.row_id := Js.u i; Db.row_conversation_id := Js.u cid;
     Db.row_sender_id := Js.u from; Db.row_content := Js.u text;
     Db.row_created_at := t; Db.row_message_type := Js.u "text" |}.

Definition participant (cid uid : Id) (readAt : option Timestamp)
  : Db.ParticipantRow :=
  {| Db.part_conversation_id := cid; Db.part_user_id := uid;
     Db.part_role := None; Db.part_last_read_at := readAt |}.

Definition withMessages (ms : list Db.MessageRow) : Db.Store :=
  {| Db.profiles := [profileOf (user_id alice) None;
                     profileOf bob (Some (Js.u "Bob"))];
     Db.conversations :=
       [{| Db.conv_id := direct; Db.conv_name := None;
           Db.conv_is_group := false; Db.conv_updated_at := 5 |};
        {| Db.conv_id := GLOBAL_CONVERSATION_ID; Db.conv_name := None;
           Db.conv_is_group := true; Db.conv_updated_at := 1 |}];
     Db.conversation_participants :=
       [participant direct (user_id alice) (Some 15%Z);
        participant direct bob (Some 30%Z);
        participant GLOBAL_CONVERSATION_ID (user_id alice) None;
        participant GLOBAL_CONVERSATION_ID bob None];
     Db.messages := ms;
     Db.next_id := 40 |}.

Definition thread : list Db.MessageRow :=
  [row "m3" "c0ffee" "b0b" "see you" 18;
   row "m1" "c0ffee" "b0b" "hello" 10;
   row "g1" "00000000-0000-0000-0000-000000000001" "b0b" "hi all" 12;
   row "m2" "c0ffee" "a11ce" "hello" 20].

Definition env (s : Db.Store) (script : list Outcome) : Env :=
  {| store := s; outcomes := script; trace := []; alerts := [];
     timers := []; now := 1000 |}.

(** The list as [loadConversations] builds it for alice. *)
Definition loaded : ConversationList.State :=
  stateAfter (ConversationList.loadConversations alice)
             (env (withMessages thread) []) ConversationList.initial.

End Sample.

(** * Properties *)

(** ** Strings *)

Lemma eqb_eq (a b : jsstring) : Js.eqb a b = true <-> a = b.
Proof.
  revert b; induction a as [|x a IH]; intros [|y b]; simpl;
    try (split; [discriminate | congruence]); try tauto.
  rewrite andb_true_iff, N.eqb_eq, IH.
  split; [intros [-> ->]; reflexivity | intros E; inversion E; auto].
Qed.

Lemma eqb_refl (a : jsstring) : Js.eqb a a = true.
Proof. now apply eqb_eq. Qed.

Lemma eqb_neq (a b : jsstring) : Js.eqb a b = false <-> a <> b.
Proof.
  split.
  - intros E H. apply eqb_eq in H. congruence.
  - intros H. destruct (Js.eqb a b) eqn:E; [apply eqb_eq in E; tauto | reflexivity].
Qed.

Lemma trimStart_nil_iff (s : jsstring) :
  Js.trimStart s = [] <-> forallb Js.isWhiteSpace s = true.
Proof.
  induction s as [|c s IH]; simpl; [tauto|].
  destruct (Js.isWhiteSpace c); simpl; [exact IH | split; discriminate].
Qed.

Lemma trimStart_head (s : jsstring) c r :
  Js.trimStart s = c :: r -> Js.isWhiteSpace c = false.
Proof.
  induction s as [|d s IH]; simpl; [discriminate|].
  destruct (Js.isWhiteSpace d) eqn:E; [exact IH | congruence].
Qed.

(** [s.trim()] is the empty string exactly for the strings made of
    white space only (the empty one included). *)
Lemma trim_nil_iff (s : jsstring) :
  Js.trim s = [] <-> forallb Js.isWhiteSpace s = true.
Proof.
  unfold Js.trim, Js.trimEnd.
  rewrite <- trimStart_nil_iff.
  split.
  - intros H.
    assert (R : Js.trimStart (rev (Js.trimStart s)) = []).
    { destruct (Js.trimStart (rev (Js.trimStart s))) as [|x l]; [reflexivity|].
      simpl in H. now destruct (rev l). }
    destruct (Js.trimStart s) as [|c r] eqn:E; [reflexivity|].
    apply trimStart_head in E.
    apply trimStart_nil_iff in R.
    assert (W : Js.isWhiteSpace c = true).
    { apply (proj1 (forallb_forall _ _) R). apply -> in_rev. now left. }
    congruence.
  - intros ->. reflexivity.
Qed.

Lemma blank_not_truthy (s : jsstring) :
  forallb Js.isWhiteSpace s = true -> Js.truthy (Js.trim s) = false.
Proof. intros H. apply trim_nil_iff in H. now rewrite H. Qed.

(** ** Sorting *)

Section SortingFacts.
Variable A : Type.
Variable le : A -> A -> bool.
Hypothesis le_total : forall a b, le a b = false -> le b a = true.

Lemma insertSorted_perm (x : A) (l : list A) :
  Permutation (insertSorted le x l) (x :: l).
Proof.
  induction l as [|y l IH]; simpl; [reflexivity|].
  destruct (le x y); [reflexivity|].
  rewrite IH. apply perm_swap.
Qed.

Lemma stableSort_perm (l : list A) : Permutation (stableSort le l) l.
Proof.
  induction l as [|x l IH]; simpl; [constructor|].
  rewrite insertSorted_perm. now constructor.
Qed.

Lemma insertSorted_hdrel (x z : A) (l : list A) :
  le z x = true ->
  HdRel (fun a b => le a b = true) z l ->
  HdRel (fun a b => le a b = true) z (insertSorted le x l).
Proof.
  intros Hzx Hz. destruct l as [|y l]; simpl; [now constructor|].
  destruct (le x y); constructor; [assumption|].
  now inversion Hz.
Qed.

Lemma insertSorted_sorted (x : A) (l : list A) :
  Sorted (fun a b => le a b = true) l ->
  Sorted (fun a b => le a b = true) (insertSorted le x l).
Proof.
  induction 1 as [|y l Hs IH Hhd]; simpl.
  - repeat constructor.
  - destruct (le x y) eqn:E.
    + repeat constructor; assumption.
    + constructor; [exact IH|].
      apply insertSorted_hdrel; [now apply le_total | exact Hhd].
Qed.

Lemma stableSort_sorted (l : list A) :
  Sorted (fun a b => le a b = true) (stableSort le l).
Proof.
  induction l as [|x l IH]; simpl; [constructor|].
  now apply insertSorted_sorted.
Qed.

End SortingFacts.

(** ** Requests *)

Lemma reliable_next (os : list Outcome) :
  Forall (fun o => o = Succeeds) os ->
  nextOutcome os = (Succeeds, tl os) /\ Forall (fun o => o = Succeeds) (tl os).
Proof.
  intros H. destruct H as [|o os Ho H]; simpl; [now split|].
  subst o. now split.
Qed.

Lemma request_reliable {U A} (r : Request) (op : Db.Store -> A * Db.Store)
      (e : Env) (ui : U) :
  reliable e ->
  request r op (e, ui) =
  (Data (fst (op (store e))),
   ({| store := snd (op (store e)); outcomes := tl (outcomes e);
       trace := trace e ++ [r]; alerts := alerts e; timers := timers e;
       now := now e |}, ui)).
Proof.
  intros H. unfold request; simpl.
  destruct (reliable_next H) as [-> _].
  now destruct (op (store e)).
Qed.

Lemma query_reliable {U A} (r : Request) (q : Db.Store -> A)
      (e : Env) (ui : U) :
  reliable e ->
  query r q (e, ui) =
  (Data (q (store e)),
   ({| store := store e; outcomes := tl (outcomes e);
       trace := trace e ++ [r]; alerts := alerts e; timers := timers e;
       now := now e |}, ui)).
Proof. intros H. unfold query. now rewrite request_reliable. Qed.

Lemma reliable_tl (e : Env) s tr al tm t :
  reliable e ->
  reliable {| store := s; outcomes := tl (outcomes e); trace := tr;
              alerts := al; timers := tm; now := t |}.
Proof. intros H. exact (proj2 (reliable_next H)). Qed.

(** ** The message thread *)

Section ThreadFacts.
Variable conversationId : Id.

Lemma loadMessages_state (e : Env) (st : Chat.State) :
  stateAfter (Chat.loadMessages conversationId) e st =
  match fst (nextOutcome (outcomes e)) with
  | Succeeds =>
      Chat.setLoading false
        (Chat.setMessages
           (fun _ => Chat.selectMessages conversationId (store e)) st)
  | Fails _ => st
  end.
Proof.
  unfold stateAfter, Chat.loadMessages, query, request, bind; simpl.
  destruct (nextOutcome (outcomes e)) as [[|msg] rest]; reflexivity.
Qed.

Lemma selectMessages_ids (s : Db.Store) :
  map Chat.id (Chat.selectMessages conversationId s) =
  map Db.row_id (Db.messagesAscending conversationId s).
Proof. unfold Chat.selectMessages. rewrite map_map. reflexivity. Qed.

(** Selecting rows keeps their ids distinct. *)
Lemma selected_rows_distinct (keep : Db.MessageRow -> bool)
      (rows : list Db.MessageRow) :
  NoDup (map Db.row_id rows) -> NoDup (map Db.row_id (filter keep rows)).
Proof.
  induction rows as [|r rows IH]; simpl; intros Hd; [exact Hd|].
  apply NoDup_cons_iff in Hd as [Hr Hd].
  destruct (keep r); simpl; [|now apply IH].
  apply NoDup_cons; [|now apply IH].
  intros Hin. apply Hr. apply in_map_iff in Hin as (y & <- & Hy).
  apply in_map. now apply filter_In in Hy.
Qed.

Lemma selectMessages_nodup (s : Db.Store) :
  uniqueMessageIds s ->
  NoDup (map Chat.id (Chat.selectMessages conversationId s)).
Proof.
  intros H. rewrite selectMessages_ids. unfold Db.messagesAscending.
  eapply Permutation_NoDup.
  - apply Permutation_map. symmetry. apply stableSort_perm.
  - apply selected_rows_distinct. exact H.
Qed.

Lemma StronglySorted_map {A B} (f : A -> B) (R : B -> B -> Prop) (l : list A) :
  StronglySorted (fun a b => R (f a) (f b)) l -> StronglySorted R (map f l).
Proof.
  induction 1 as [|x l Hs IH Hall]; simpl; constructor; [assumption|].
  apply Forall_map. exact Hall.
Qed.

Lemma selectMessages_ascending (s : Db.Store) :
  ascendingByCreatedAt (Chat.selectMessages conversationId s).
Proof.
  unfold ascendingByCreatedAt, Chat.selectMessages, Db.messagesAscending.
  apply StronglySorted_map. simpl.
  apply Sorted_StronglySorted.
  - intros a b c Hab Hbc. lia.
  - eapply Sorted_ind with
      (P := fun l => Sorted (fun a b => (Db.row_created_at a <= Db.row_created_at b)%Z) l).
    + constructor.
    + intros a l _ IH Hhd. constructor; [exact IH|].
      destruct Hhd as [|b l Hab]; constructor.
      apply (proj1 (Z.leb_le _ _)). exact Hab.
    + apply stableSort_sorted. intros a b H.
      apply Z.leb_le. apply Z.leb_gt in H. lia.
Qed.

End ThreadFacts.

Lemma refreshes_invariant (cid : Id) (envs : list Env) (st : Chat.State) :
  Forall (fun e => uniqueMessageIds (store e)) envs ->
  ascendingByCreatedAt (Chat.messages st) ->
  NoDup (map Chat.id (Chat.messages st)) ->
  ascendingByCreatedAt (Chat.messages (refreshes cid envs st))
  /\ NoDup (map Chat.id (Chat.messages (refreshes cid envs st))).
Proof.
  intros Henvs. revert st.
  induction Henvs as [|e envs He _ IH]; intros st Hs Hn; simpl; [now split|].
  apply IH; rewrite loadMessages_state;
    destruct (fst (nextOutcome (outcomes e))); simpl; trivial.
  - apply selectMessages_ascending.
  - now apply selectMessages_nodup.
Qed.

Lemma applyLoad_twice (r : Result (list Chat.Message)) (e1 e2 : Env)
      (st : Chat.State) :
  stateAfter (Chat.applyLoad r) e2 (stateAfter (Chat.applyLoad r) e1 st) =
  stateAfter (Chat.applyLoad r) e1 st.
Proof. destruct r; reflexivity. Qed.

(** C6.  Whatever run of refresh loads a thread goes through, each
    against a store whose message ids are unique and each succeeding or
    failing, the displayed list that results is sorted ascending by
    [created_at] and holds no id twice; a refresh that succeeds replaces
    the list by the store's ordered snapshot, and applying one refresh
    result a second time changes nothing. *)
Theorem refresh_loads_sorted_without_duplicates
        (cid : Id) (envs : list Env) :
  Forall (fun e => uniqueMessageIds (store e)) envs ->
  let final := refreshes cid envs Chat.initial in
  ascendingByCreatedAt (Chat.messages final)
  /\ NoDup (map Chat.id (Chat.messages final))
  /\ (forall e st,
         fst (nextOutcome (outcomes e)) = Succeeds ->
         Chat.messages (stateAfter (Chat.loadMessages cid) e st) =
         Chat.selectMessages cid (store e))
  /\ (forall r e1 e2 st,
         stateAfter (Chat.applyLoad r) e2 (stateAfter (Chat.applyLoad r) e1 st) =
         stateAfter (Chat.applyLoad r) e1 st).
Proof.
  intros Henvs final.
  destruct (@refreshes_invariant cid envs Chat.initial Henvs) as [Hs Hn].
  - constructor.
  - constructor.
  - repeat split; trivial.
    + intros e st Ho. rewrite loadMessages_state, Ho. reflexivity.
    + intros. apply applyLoad_twice.
Qed.

Lemma refresh_loads_sorted_without_duplicates_witness :
  let envs := [Sample.env (Sample.withMessages Sample.thread) [];
               Sample.env (Sample.withMessages []) [Fails (Js.u "offline")]] in
  Forall (fun e => uniqueMessageIds (store e)) envs
  /\ map Chat.id (Chat.messages (refreshes Sample.direct envs Chat.initial))
     = [Js.u "m1"; Js.u "m3"; Js.u "m2"]
  /\ ascendingByCreatedAt
       (Chat.messages (refreshes Sample.direct envs Chat.initial)).
Proof.
  intros envs.
  assert (H : Forall (fun e => uniqueMessageIds (store e)) envs).
  { unfold envs, uniqueMessageIds. repeat constructor; simpl; intuition discriminate. }
  split; [exact H|]. split; [reflexivity|].
  exact (proj1 (refresh_loads_sorted_without_duplicates Sample.direct H)).
Defined.

(** C10.  Submitting the form while the input is empty or holds white
    space only does nothing: no request is sent, no optimistic entry
    is appended, and the list, the input and the rest of the state
    are as before. *)
Theorem sendMessage_blank_input_noop
        (cid : Id) (user : User) (e : Env) (st : Chat.State) :
  forallb Js.isWhiteSpace (Chat.newMessage st) = true ->
  Chat.sendMessage cid user (e, st) = (tt, (e, st)).
Proof.
  intros H. unfold Chat.sendMessage, bind, getState; simpl.
  now rewrite (blank_not_truthy _ H).
Qed.

Lemma sendMessage_blank_input_noop_witness :
  let st := Chat.setNewMessage (Js.u "  " ++ [9%N; 160%N]) Chat.initial in
  forallb Js.isWhiteSpace (Chat.newMessage st) = true
  /\ Chat.sendMessage Sample.direct Sample.alice
       (Sample.env (Sample.withMessages Sample.thread) [], st)
     = (tt, (Sample.env (Sample.withMessages Sample.thread) [], st)).
Proof.
  intros st. split; [reflexivity|].
  apply (@sendMessage_blank_input_noop Sample.direct Sample.alice); reflexivity.
Defined.

(** *** Optimistic send *)

Lemma filter_length_perm {A} (p : A -> bool) (l l' : list A) :
  Permutation l l' -> length (filter p l) = length (filter p l').
Proof.
  induction 1 as [|x l l' _ IH|x y l|l l' l'' _ IH1 _ IH2]; simpl.
  - reflexivity.
  - destruct (p x); simpl; congruence.
  - destruct (p x), (p y); reflexivity.
  - congruence.
Qed.

Lemma filter_map_length {A B} (f : A -> B) (p : B -> bool) (l : list A) :
  length (filter p (map f l)) = length (filter (fun a => p (f a)) l).
Proof.
  induction l as [|x l IH]; simpl; [reflexivity|].
  destruct (p (f x)); simpl; congruence.
Qed.

Lemma countContent_selectMessages (cid : Id) (text : jsstring) (s : Db.Store) :
  countContent text (Chat.selectMessages cid s) = countPersisted cid text s.
Proof.
  unfold countContent, countPersisted, Chat.selectMessages, Db.messagesAscending.
  rewrite filter_map_length. simpl.
  apply filter_length_perm, stableSort_perm.
Qed.

Lemma countPersisted_insert (cid from text type : jsstring) (t : Timestamp)
      (s : Db.Store) :
  countPersisted cid text (Db.insertMessage cid from text type t s) =
  S (countPersisted cid text s).
Proof.
  unfold countPersisted, Db.messagesOf, Db.insertMessage; simpl.
  rewrite filter_app; simpl. rewrite eqb_refl; simpl.
  rewrite filter_app; simpl. rewrite eqb_refl; simpl.
  rewrite length_app; simpl. lia.
Qed.

Lemma uuid_not_temp (n : N) : isTemp (Db.uuid n) = false.
Proof. reflexivity. Qed.

Lemma tempId_isTemp (t : Timestamp) : isTemp (Chat.tempId t) = true.
Proof. reflexivity. Qed.

Lemma not_temp_not_in (i : Id) (ids : list Id) :
  isTemp i = true -> Forall (fun j => isTemp j = false) ids -> ~ In i ids.
Proof.
  intros Hi Hall Hin. rewrite Forall_forall in Hall.
  apply Hall in Hin. congruence.
Qed.

Lemma selectMessages_not_temp (cid : Id) (s : Db.Store) :
  Forall (fun m => isTemp (Db.row_id m) = false) (Db.messages s) ->
  Forall (fun j => isTemp j = false) (map Chat.id (Chat.selectMessages cid s)).
Proof.
  intros H. rewrite selectMessages_ids. apply Forall_map.
  rewrite Forall_forall in *. intros m Hm. apply H.
  unfold Db.messagesAscending in Hm.
  apply (Permutation_in _ (stableSort_perm _ _)) in Hm.
  now apply filter_In in Hm.
Qed.

Lemma filter_removes_id (i : Id) (l : list Chat.Message) :
  ~ In i (map Chat.id (filter (fun msg => negb (Js.eqb (Chat.id msg) i)) l)).
Proof.
  intros H. apply in_map_iff in H as (m & Hid & Hm).
  apply filter_In in Hm as [_ Hm]. subst i. now rewrite eqb_refl in Hm.
Qed.

(** What [sendMessage] leaves when the input is not blank. *)
Lemma sendMessage_run (cid : Id) (user : User) (e : Env) (st : Chat.State) :
  Js.truthy (Js.trim (Chat.newMessage st)) = true ->
  let text := Js.trim (Chat.newMessage st) in
  let tmp := Chat.tempMessage cid user text (now e) in
  match fst (nextOutcome (outcomes e)) with
  | Succeeds =>
      Chat.messages (stateAfter (Chat.sendMessage cid user) e st)
      = Chat.messages st ++ [tmp]
      /\ store (envAfter (Chat.sendMessage cid user) e st)
         = Db.insertMessage cid (user_id user) text (Js.u "text") (now e) (store e)
      /\ alerts (envAfter (Chat.sendMessage cid user) e st) = alerts e
  | Fails _ =>
      Chat.messages (stateAfter (Chat.sendMessage cid user) e st)
      = filter (fun msg => negb (Js.eqb (Chat.id msg) (Chat.tempId (now e))))
               (Chat.messages st ++ [tmp])
      /\ store (envAfter (Chat.sendMessage cid user) e st) = store e
      /\ alerts (envAfter (Chat.sendMessage cid user) e st)
         = alerts e ++ [Js.u "Failed to send message"]
  end.
Proof.
  intros H text tmp.
  unfold stateAfter, envAfter, Chat.sendMessage, bind, getState; simpl.
  rewrite H; simpl.
  unfold mutate, request; simpl.
  destruct (nextOutcome (outcomes e)) as [[|msg] rest]; simpl; auto.
Qed.

(** C2 (as amended).  A send whose insert succeeds appends the
    optimistic entry, and once a refresh load of the stored thread has
    succeeded the temporary id is gone from the displayed list and the
    list holds exactly one more message with the sent content than the
    conversation stored before the send.  A send whose insert fails
    leaves no entry with the temporary id, leaves the store as it was
    and raises an alert. *)
Theorem optimistic_send_outcome
        (cid : Id) (user : User) (e : Env) (st : Chat.State) :
  Js.truthy (Js.trim (Chat.newMessage st)) = true ->
  Forall (fun m => isTemp (Db.row_id m) = false) (Db.messages (store e)) ->
  let text := Js.trim (Chat.newMessage st) in
  let st1 := stateAfter (Chat.sendMessage cid user) e st in
  let e1 := envAfter (Chat.sendMessage cid user) e st in
  match fst (nextOutcome (outcomes e)) with
  | Succeeds =>
      Chat.messages st1
      = Chat.messages st ++ [Chat.tempMessage cid user text (now e)]
      /\ forall e2,
           store e2 = store e1 ->
           fst (nextOutcome (outcomes e2)) = Succeeds ->
           let st2 := stateAfter (Chat.loadMessages cid) e2 st1 in
           ~ In (Chat.tempId (now e)) (map Chat.id (Chat.messages st2))
           /\ countContent text (Chat.messages st2)
              = S (countPersisted cid text (store e))
  | Fails _ =>
      ~ In (Chat.tempId (now e)) (map Chat.id (Chat.messages st1))
      /\ store e1 = store e
      /\ alerts e1 = alerts e ++ [Js.u "Failed to send message"]
  end.
Proof.
  intros Hin Hstore text st1 e1.
  pose proof (@sendMessage_run cid user e st Hin) as Hrun.
  fold text st1 e1 in Hrun. simpl in Hrun.
  destruct (fst (nextOutcome (outcomes e))) as [|msg].
  - destruct Hrun as (Hm & Hs & _). split; [exact Hm|].
    intros e2 He2 Hok st2. unfold st2.
    rewrite loadMessages_state, Hok; simpl. rewrite He2, Hs. split.
    + apply not_temp_not_in; [apply tempId_isTemp|].
      apply selectMessages_not_temp. simpl.
      apply Forall_app. split; [exact Hstore|].
      constructor; [apply uuid_not_temp | constructor].
    + rewrite countContent_selectMessages. apply countPersisted_insert.
  - destruct Hrun as (Hm & Hs & Ha). repeat split; trivial.
    rewrite Hm. apply filter_removes_id.
Qed.

Lemma optimistic_send_outcome_witness :
  let e := Sample.env (Sample.withMessages Sample.thread) [] in
  let st := Chat.setNewMessage (Js.u " on my way ") Chat.initial in
  Js.truthy (Js.trim (Chat.newMessage st)) = true
  /\ Forall (fun m => isTemp (Db.row_id m) = false) (Db.messages (store e))
  /\ Chat.messages (stateAfter (Chat.sendMessage Sample.direct Sample.alice) e st)
     = [Chat.tempMessage Sample.direct Sample.alice (Js.u "on my way") 1000].
Proof.
  intros e st.
  assert (H1 : Js.truthy (Js.trim (Chat.newMessage st)) = true) by reflexivity.
  assert (H2 : Forall (fun m => isTemp (Db.row_id m) = false)
                      (Db.messages (store e)))
    by (repeat constructor).
  split; [exact H1|]. split; [exact H2|].
  exact (proj1 (@optimistic_send_outcome Sample.direct Sample.alice e st H1 H2)).
Defined.

(** C2 as first worded fails: "hello" is already stored twice in the
    thread, the send of "hello" succeeds and the refresh load succeeds,
    and the displayed list then holds three messages with the sent
    content, not exactly one. *)
Lemma optimistic_send_repeated_content :
  let e := Sample.env (Sample.withMessages Sample.thread) [] in
  let st := Chat.setNewMessage (Js.u "hello") Chat.initial in
  let st1 := stateAfter (Chat.sendMessage Sample.direct Sample.alice) e st in
  let e1 := envAfter (Chat.sendMessage Sample.direct Sample.alice) e st in
  let st2 := stateAfter (Chat.loadMessages Sample.direct) e1 st1 in
  fst (nextOutcome (outcomes e)) = Succeeds
  /\ fst (nextOutcome (outcomes e1)) = Succeeds
  /\ countContent (Js.u "hello") (Chat.messages st2) = 3
  /\ countContent (Js.u "hello") (Chat.messages st2) <> 1.
Proof. vm_compute. repeat split; discriminate. Qed.

(** *** Poll fallback *)

(** A timer started at [t0] fires after any later instant [t] within
    one period. *)
Lemma nextPoll_within_period (t0 t : Z) :
  (t0 <= t -> t < Chat.nextPoll t0 t <= t + Chat.pollPeriod)%Z.
Proof.
  intros H. unfold Chat.nextPoll, Chat.pollPeriod.
  pose proof (Z.div_mod (t - t0) 3000 ltac:(lia)).
  pose proof (Z.mod_pos_bound (t - t0) 3000 ltac:(lia)).
  lia.
Qed.

(** The tick reloads exactly when the count grew from a positive
    previous count. *)
Lemma pollTick_state (cid : Id) (e : Env) (st : Chat.State) :
  reliable e ->
  let current := length (Db.messagesOf cid (store e)) in
  stateAfter (Chat.pollTick cid) e st =
  Chat.setLastMessageCount current
    (if (0 <? Chat.lastMessageCount st)%nat
        && (Chat.lastMessageCount st <? current)%nat
     then Chat.setLoading false
            (Chat.setMessages (fun _ => Chat.selectMessages cid (store e)) st)
     else st).
Proof.
  intros He current.
  unfold stateAfter, Chat.pollTick, bind.
  rewrite (query_reliable _ _ _ He). simpl.
  rewrite length_map. fold current.
  destruct ((0 <? Chat.lastMessageCount st)%nat
            && (Chat.lastMessageCount st <? current)%nat); [|reflexivity].
  unfold Chat.loadMessages, bind.
  rewrite query_reliable by (now apply reliable_tl). reflexivity.
Qed.

(** While the previous count is zero a tick never reloads, whatever
    the store holds. *)
Lemma pollTick_from_zero_keeps_list (cid : Id) (e : Env) (st : Chat.State) :
  reliable e ->
  Chat.lastMessageCount st = 0 ->
  Chat.messages (stateAfter (Chat.pollTick cid) e st) = Chat.messages st.
Proof.
  intros He H0. rewrite (pollTick_state cid st He), H0. reflexivity.
Qed.

(** A tick that sees the count grow from a positive count reloads. *)
Lemma pollTick_growth_reloads (cid : Id) (e : Env) (st : Chat.State) :
  reliable e ->
  0 < Chat.lastMessageCount st ->
  Chat.lastMessageCount st < length (Db.messagesOf cid (store e)) ->
  Chat.messages (stateAfter (Chat.pollTick cid) e st)
  = Chat.selectMessages cid (store e).
Proof.
  intros He Hpos Hgrow. rewrite (pollTick_state cid st He).
  apply Nat.ltb_lt in Hpos, Hgrow. rewrite Hpos, Hgrow. reflexivity.
Qed.

(** C3 at the failing input.  The thread of a conversation with no
    message is mounted, the push channel is down, the first tick counts
    zero rows, a message of the other user is then stored, and the next
    tick counts one row: the tick sends the count request only, no
    refresh load, and the displayed list stays empty. *)
Theorem pollTick_misses_growth_from_zero :
  let empty := Sample.env (Sample.withMessages []) [] in
  let arrived :=
    Sample.env (Sample.withMessages [Sample.row "m1" "c0ffee" "b0b" "hello" 10]) [] in
  let st0 := stateAfter (Chat.mount Sample.direct) empty Chat.initial in
  let st1 := stateAfter (Chat.pollTick Sample.direct) empty st0 in
  let st2 := stateAfter (Chat.pollTick Sample.direct) arrived st1 in
  Chat.isSubscribed st1 = false
  /\ Chat.lastMessageCount st1 = 0
  /\ length (Db.messagesOf Sample.direct (store arrived)) = 1
  /\ trace (envAfter (Chat.pollTick Sample.direct) arrived st1)
     = [SelectMessageIds Sample.direct]
  /\ Chat.messages st2 = [].
Proof. vm_compute. repeat split. Qed.

(** ** The conversation list *)

Section ListFacts.
Variable user : User.

Lemma markConversationAsRead_run (cid : Id) (e : Env)
      (st : ConversationList.State) :
  Js.truthy cid = true ->
  Js.truthy (user_id user) = true ->
  match fst (nextOutcome (outcomes e)) with
  | Succeeds =>
      stateAfter (ConversationList.markConversationAsRead user cid) e st
      = ConversationList.setConversations
          (map (fun conv =>
                  if Js.eqb (ConversationList.id conv) cid
                  then ConversationList.withRead conv else conv)) st
      /\ store (envAfter (ConversationList.markConversationAsRead user cid) e st)
         = Db.updateLastRead cid (user_id user) (now e) (store e)
  | Fails _ =>
      stateAfter (ConversationList.markConversationAsRead user cid) e st = st
      /\ store (envAfter (ConversationList.markConversationAsRead user cid) e st)
         = store e
  end.
Proof.
  intros Hc Hu.
  unfold stateAfter, envAfter, ConversationList.markConversationAsRead.
  rewrite Hc, Hu; simpl.
  unfold bind, clock, mutate, request; simpl.
  destruct (nextOutcome (outcomes e)) as [[|msg] rest]; simpl.
  - split; reflexivity.
  - split; [now destruct st | reflexivity].
Qed.

Lemma map_patch_ids (cid : Id)
      (patch : ConversationList.Conversation -> ConversationList.Conversation)
      (l : list ConversationList.Conversation) :
  (forall conv, ConversationList.id (patch conv) = ConversationList.id conv) ->
  map ConversationList.id
      (map (fun conv => if Js.eqb (ConversationList.id conv) cid
                        then patch conv else conv) l)
  = map ConversationList.id l.
Proof.
  intros H. rewrite map_map. apply map_ext. intros conv.
  destruct (Js.eqb (ConversationList.id conv) cid); [apply H | reflexivity].
Qed.

Lemma in_map_patch (cid : Id)
      (patch : ConversationList.Conversation -> ConversationList.Conversation)
      (l : list ConversationList.Conversation) conv :
  (forall c, ConversationList.id (patch c) = ConversationList.id c) ->
  In conv (map (fun c => if Js.eqb (ConversationList.id c) cid
                         then patch c else c) l) ->
  ConversationList.id conv = cid ->
  exists c, In c l /\ conv = patch c.
Proof.
  intros Hid Hin Hc. apply in_map_iff in Hin as (c & Hcv & Hin).
  exists c. split; [exact Hin|].
  destruct (Js.eqb (ConversationList.id c) cid) eqn:E; [now symmetry|].
  subst conv. apply eqb_neq in E. contradiction.
Qed.

End ListFacts.

(** C4 (as amended).  [markConversationAsRead] first awaits the store
    write.  When the write succeeds, every entry of the conversation has
    [hasUnread = false] afterwards, the other entries and the order are
    as before, and the participant row carries the new [last_read_at];
    when the write fails, the local state and the store are unchanged. *)
Theorem markRead_clears_flag_once_stored
        (user : User) (cid : Id) (e : Env) (st : ConversationList.State) :
  Js.truthy cid = true ->
  Js.truthy (user_id user) = true ->
  let st1 := stateAfter (ConversationList.markConversationAsRead user cid) e st in
  let e1 := envAfter (ConversationList.markConversationAsRead user cid) e st in
  match fst (nextOutcome (outcomes e)) with
  | Succeeds =>
      (forall conv,
          In conv (ConversationList.conversations st1) ->
          ConversationList.id conv = cid ->
          ConversationList.hasUnread conv = false)
      /\ (forall conv,
             In conv (ConversationList.conversations st) ->
             ConversationList.id conv <> cid ->
             In conv (ConversationList.conversations st1))
      /\ displayedOrder st1 = displayedOrder st
      /\ store e1 = Db.updateLastRead cid (user_id user) (now e) (store e)
  | Fails _ => st1 = st /\ store e1 = store e
  end.
Proof.
  intros Hc Hu st1 e1.
  pose proof (@markConversationAsRead_run user cid e st Hc Hu) as Hrun.
  fold st1 e1 in Hrun.
  destruct (fst (nextOutcome (outcomes e))); [|exact Hrun].
  destruct Hrun as [Hst He]. rewrite Hst. unfold displayedOrder. simpl.
  repeat split.
  - intros conv Hin Hid.
    apply in_map_patch in Hin as (c & _ & ->); trivial.
  - intros conv Hin Hid. apply in_map_iff. exists conv.
    split; [|exact Hin].
    apply eqb_neq in Hid. now rewrite Hid.
  - now apply map_patch_ids.
  - exact He.
Qed.

Lemma markRead_clears_flag_once_stored_witness :
  let e := Sample.env (Sample.withMessages Sample.thread) [] in
  Js.truthy GLOBAL_CONVERSATION_ID = true
  /\ Js.truthy (user_id Sample.alice) = true
  /\ map ConversationList.hasUnread
         (ConversationList.conversations
            (stateAfter (ConversationList.markConversationAsRead
                           Sample.alice GLOBAL_CONVERSATION_ID)
                        e Sample.loaded))
     = [false; false]
  /\ displayedOrder
       (stateAfter (ConversationList.markConversationAsRead
                      Sample.alice GLOBAL_CONVERSATION_ID) e Sample.loaded)
     = displayedOrder Sample.loaded.
Proof.
  intros e.
  split; [reflexivity|]. split; [reflexivity|]. split; [reflexivity|].
  exact (proj1 (proj2 (proj2
    (@markRead_clears_flag_once_stored Sample.alice GLOBAL_CONVERSATION_ID
       e Sample.loaded eq_refl eq_refl)))).
Defined.

(** C4 as first worded fails: the global conversation is unread, the
    store write of [markConversationAsRead] fails, and the entry is
    still unread afterwards. *)
Lemma markRead_keeps_flag_when_store_fails :
  let e := Sample.env (Sample.withMessages Sample.thread)
                      [Fails (Js.u "permission denied")] in
  let st1 := stateAfter (ConversationList.markConversationAsRead
                           Sample.alice GLOBAL_CONVERSATION_ID)
                        e Sample.loaded in
  map (fun c => (ConversationList.id c, ConversationList.hasUnread c))
      (ConversationList.conversations Sample.loaded)
  = [(Sample.direct, false); (GLOBAL_CONVERSATION_ID, true)]
  /\ map (fun c => (ConversationList.id c, ConversationList.hasUnread c))
         (ConversationList.conversations st1)
     = [(Sample.direct, false); (GLOBAL_CONVERSATION_ID, true)].
Proof. vm_compute. split; reflexivity. Qed.

(** C5 (as amended).  For an inserted message of another user the
    handler sends no request and reloads nothing; it patches the list
    in place: every entry of the message's conversation gets
    [hasUnread = true] and [updated_at] set to the message's
    [created_at], while [lastMessageTime] (the sort key of the list),
    the other entries and the displayed order stay as they were. *)
Theorem onMessageInsert_patches_in_place
        (user : User) (new : Db.MessageRow) (e : Env)
        (st : ConversationList.State) :
  Db.row_sender_id new <> user_id user ->
  let st1 := stateAfter (ConversationList.onMessageInsert user new) e st in
  envAfter (ConversationList.onMessageInsert user new) e st = e
  /\ displayedOrder st1 = displayedOrder st
  /\ map ConversationList.lastMessageTime (ConversationList.conversations st1)
     = map ConversationList.lastMessageTime (ConversationList.conversations st)
  /\ (forall conv,
         In conv (ConversationList.conversations st1) ->
         ConversationList.id conv = Db.row_conversation_id new ->
         ConversationList.hasUnread conv = true
         /\ ConversationList.updated_at conv = Db.row_created_at new)
  /\ (forall conv,
         In conv (ConversationList.conversations st) ->
         ConversationList.id conv <> Db.row_conversation_id new ->
         In conv (ConversationList.conversations st1))
  /\ (In (Db.row_conversation_id new) (displayedOrder st) ->
      exists conv,
        In conv (ConversationList.conversations st1)
        /\ ConversationList.id conv = Db.row_conversation_id new
        /\ ConversationList.hasUnread conv = true).
Proof.
  intros Hsender st1.
  assert (Hst : st1 = ConversationList.setConversations
                        (map (fun conv =>
                                if Js.eqb (ConversationList.id conv)
                                          (Db.row_conversation_id new)
                                then ConversationList.withUnread
                                       (Db.row_created_at new) conv
                                else conv)) st).
  { unfold st1, stateAfter, ConversationList.onMessageInsert.
    apply eqb_neq in Hsender. now rewrite Hsender. }
  split.
  { unfold envAfter, ConversationList.onMessageInsert.
    apply eqb_neq in Hsender. now rewrite Hsender. }
  rewrite Hst. unfold displayedOrder. simpl. repeat split.
  - now apply map_patch_ids.
  - rewrite map_map. apply map_ext. intros conv.
    now destruct (Js.eqb (ConversationList.id conv) (Db.row_conversation_id new)).
  - apply in_map_patch in H as (c & _ & ->); trivial.
  - apply in_map_patch in H as (c & _ & ->); trivial.
  - intros conv Hin Hid. apply in_map_iff. exists conv.
    split; [|exact Hin]. apply eqb_neq in Hid. now rewrite Hid.
  - intros Hin. apply in_map_iff in Hin as (c & Hid & Hin).
    exists (ConversationList.withUnread (Db.row_created_at new) c).
    repeat split; trivial.
    apply in_map_iff. exists c. split; [|exact Hin].
    apply eqb_eq in Hid. now rewrite Hid.
Qed.

Lemma onMessageInsert_patches_in_place_witness :
  let new := Sample.row "g2" "00000000-0000-0000-0000-000000000001"
                        "b0b" "news" 50 in
  let e := Sample.env (Sample.withMessages (Sample.thread ++ [new])) [] in
  Db.row_sender_id new <> user_id Sample.alice
  /\ envAfter (ConversationList.onMessageInsert Sample.alice new) e Sample.loaded
     = e.
Proof.
  intros new e.
  assert (H : Db.row_sender_id new <> user_id Sample.alice) by discriminate.
  split; [exact H|].
  exact (proj1 (@onMessageInsert_patches_in_place Sample.alice new e
                  Sample.loaded H)).
Defined.

(** C5 as first worded fails: the list shows the direct conversation
    above the global one, a message of the other user is inserted into
    the global conversation, and after the handler the global
    conversation is unread but still second, not on top. *)
Lemma onMessageInsert_keeps_position :
  let new := Sample.row "g2" "00000000-0000-0000-0000-000000000001"
                        "b0b" "news" 50 in
  let e := Sample.env (Sample.withMessages (Sample.thread ++ [new])) [] in
  let st1 := stateAfter (ConversationList.onMessageInsert Sample.alice new)
                        e Sample.loaded in
  Js.eqb (Db.row_sender_id new) (user_id Sample.alice) = false
  /\ displayedOrder Sample.loaded = [Sample.direct; GLOBAL_CONVERSATION_ID]
  /\ displayedOrder st1 = [Sample.direct; GLOBAL_CONVERSATION_ID]
  /\ map ConversationList.hasUnread (ConversationList.conversations st1)
     = [false; true]
  /\ hd_error (displayedOrder st1) <> Some (Db.row_conversation_id new).
Proof. vm_compute. repeat split; discriminate. Qed.

(** C8.  With fewer than two selected members, or with a group name
    that is empty or white space only, [createGroupChat] only raises an
    alert: it sends no request, so the store holds the same rows, and
    every cell of the local state is unchanged. *)
Theorem createGroupChat_rejects_before_any_request
        (user : User) (e : Env) (st : ConversationList.State) :
  length (ConversationList.selectedUsers st) < 2
  \/ forallb Js.isWhiteSpace (ConversationList.groupName st) = true ->
  let e1 := envAfter (ConversationList.createGroupChat user) e st in
  stateAfter (ConversationList.createGroupChat user) e st = st
  /\ store e1 = store e
  /\ trace e1 = trace e
  /\ outcomes e1 = outcomes e
  /\ exists text, alerts e1 = alerts e ++ [text].
Proof.
  intros H e1. unfold e1, stateAfter, envAfter, ConversationList.createGroupChat, bind, getState.
  simpl.
  destruct (length (ConversationList.selectedUsers st) <? 2)%nat eqn:Hlen.
  - simpl. repeat split. eexists. reflexivity.
  - destruct H as [H|H]; [apply Nat.ltb_ge in Hlen; lia|].
    rewrite (blank_not_truthy _ H). simpl. repeat split.
    eexists. reflexivity.
Qed.

Lemma createGroupChat_rejects_before_any_request_witness :
  let st := ConversationList.setGroupName (Js.u "   ")
              (ConversationList.setSelectedUsers
                 (fun _ => [Sample.bob; Js.u "carol"; Js.u "dave"])
                 Sample.loaded) in
  let e := Sample.env (Sample.withMessages Sample.thread) [] in
  (length (ConversationList.selectedUsers st) < 2
   \/ forallb Js.isWhiteSpace (ConversationList.groupName st) = true)
  /\ stateAfter (ConversationList.createGroupChat Sample.alice) e st = st
  /\ store (envAfter (ConversationList.createGroupChat Sample.alice) e st)
     = store e.
Proof.
  intros st e.
  assert (H : length (ConversationList.selectedUsers st) < 2
              \/ forallb Js.isWhiteSpace (ConversationList.groupName st) = true)
    by (right; reflexivity).
  split; [exact H|].
  pose proof (@createGroupChat_rejects_before_any_request Sample.alice e st H)
    as (H1 & H2 & _).
  split; [exact H1 | exact H2].
Defined.

(** *** The most recent message *)

Lemma stableSort_descending (l : list Db.MessageRow) :
  StronglySorted (fun a b => (Db.row_created_at b <= Db.row_created_at a)%Z)
    (stableSort (fun a b => (Db.row_created_at b <=? Db.row_created_at a)%Z) l).
Proof.
  apply Sorted_StronglySorted.
  - intros a b c Hab Hbc. lia.
  - eapply Sorted_ind with
      (P := fun l => Sorted (fun a b => (Db.row_created_at b <= Db.row_created_at a)%Z) l).
    + constructor.
    + intros a k _ IH Hhd. constructor; [exact IH|].
      destruct Hhd as [|b k Hab]; constructor.
      apply (proj1 (Z.leb_le _ _)). exact Hab.
    + apply stableSort_sorted. intros a b H.
      apply Z.leb_le. apply Z.leb_gt in H. lia.
Qed.

(** The row that [lastMessage] selects is a message of the conversation
    and none of the conversation is newer. *)
Lemma lastMessage_latest (cid : Id) (s : Db.Store) (m : Db.MessageRow) :
  Db.lastMessage cid s = Some m ->
  In m (Db.messagesOf cid s)
  /\ forall m', In m' (Db.messagesOf cid s) ->
                (Db.row_created_at m' <= Db.row_created_at m)%Z.
Proof.
  unfold Db.lastMessage. intros H.
  pose proof (stableSort_descending (Db.messagesOf cid s)) as Hs.
  pose proof (stableSort_perm
                (fun a b => (Db.row_created_at b <=? Db.row_created_at a)%Z)
                (Db.messagesOf cid s)) as Hp.
  destruct (stableSort _ (Db.messagesOf cid s)) as [|x l]; [discriminate|].
  simpl in H. injection H as ->. split.
  - apply (Permutation_in _ Hp). now left.
  - intros m' Hm'. apply (Permutation_in _ (Permutation_sym Hp)) in Hm'.
    destruct Hm' as [<-|Hm']; [lia|].
    inversion Hs as [|? ? _ Hall]; subst.
    rewrite Forall_forall in Hall. now apply Hall.
Qed.

Lemma lastMessage_none (cid : Id) (s : Db.Store) :
  Db.lastMessage cid s = None <-> Db.messagesOf cid s = [].
Proof.
  unfold Db.lastMessage.
  pose proof (stableSort_perm
                (fun a b => (Db.row_created_at b <=? Db.row_created_at a)%Z)
                (Db.messagesOf cid s)) as Hp.
  split; intros H.
  - destruct (stableSort _ (Db.messagesOf cid s)); [|discriminate].
    now apply Permutation_nil.
  - now rewrite H.
Qed.

(** An item whose two requests succeed is kept, and its flag is
    [unreadFlag] of the selected last message. *)
Lemma enrich_reliable (user : User)
      (item : Db.ParticipantRow * Db.ConversationRow)
      (e : Env) (st : ConversationList.State) :
  reliable e ->
  exists conv e',
    ConversationList.enrich user item (e, st) = (Some conv, (e', st))
    /\ reliable e' /\ store e' = store e
    /\ ConversationList.id conv = Db.conv_id (snd item)
    /\ ConversationList.hasUnread conv
       = ConversationList.unreadFlag (user_id user)
           (Db.lastMessage (Db.conv_id (snd item)) (store e))
           (Db.part_last_read_at (fst item)).
Proof.
  intros He. unfold ConversationList.enrich, bind.
  rewrite (query_reliable _ _ _ He).
  rewrite query_reliable by (now apply reliable_tl).
  simpl. eexists. eexists. split; [reflexivity|].
  split; [|repeat split].
  unfold reliable; simpl.
  apply (proj2 (reliable_next (proj2 (reliable_next He)))).
Qed.

Lemma enrichAll_reliable (user : User)
      (data : list (Db.ParticipantRow * Db.ConversationRow))
      (e : Env) (st : ConversationList.State) :
  reliable e ->
  exists convs e',
    ConversationList.enrichAll user data (e, st) = (map Some convs, (e', st))
    /\ reliable e' /\ store e' = store e
    /\ Forall2 (builtFrom user (store e)) data convs.
Proof.
  revert e. induction data as [|item data IH]; intros e He; simpl.
  - exists [], e. repeat split; trivial.
  - unfold bind.
    destruct (@enrich_reliable user item e st He)
      as (conv & e1 & -> & He1 & Hs1 & Hid & Hflag).
    destruct (IH e1 He1) as (convs & e2 & -> & He2 & Hs2 & Hall).
    exists (conv :: convs), e2. simpl.
    repeat split; trivial; [congruence|].
    constructor; [now split | now rewrite <- Hs1].
Qed.

Lemma notNull_map_Some (convs : list ConversationList.Conversation) :
  ConversationList.notNull (map Some convs) = convs.
Proof.
  unfold ConversationList.notNull.
  induction convs as [|c convs IH]; simpl; congruence.
Qed.

(** A load in which no request fails lists every selected participant
    row once, by recency, and touches neither the store nor the other
    cells. *)
Lemma loadConversations_reliable (user : User) (e : Env)
      (st : ConversationList.State) :
  reliable e ->
  exists convs e',
    ConversationList.loadConversations user (e, st)
    = (tt, (e', ConversationList.setLoading false
                  (ConversationList.setConversations
                     (fun _ => ConversationList.byRecency convs) st)))
    /\ reliable e' /\ store e' = store e
    /\ Forall2 (builtFrom user (store e))
               (Db.participantsOfUser (user_id user) (store e)) convs.
Proof.
  intros He. unfold ConversationList.loadConversations, bind.
  rewrite (query_reliable _ _ _ He).
  match goal with
  | |- context [ConversationList.enrichAll user ?d (?e1, st)] =>
      destruct (@enrichAll_reliable user d e1 st) as (convs & e2 & -> & He2 & Hs2 & Hall);
        [now apply reliable_tl|]
  end.
  exists convs, e2. rewrite notNull_map_Some. simpl in *.
  repeat split; trivial.
Qed.

Lemma loaded_entry_built (user : User) (e : Env) (st : ConversationList.State)
      (conv : ConversationList.Conversation) :
  reliable e ->
  In conv (ConversationList.conversations
             (stateAfter (ConversationList.loadConversations user) e st)) ->
  exists item,
    In item (Db.participantsOfUser (user_id user) (store e))
    /\ builtFrom user (store e) item conv.
Proof.
  intros He Hin.
  destruct (@loadConversations_reliable user e st He)
    as (convs & e' & Hrun & _ & _ & Hall).
  unfold stateAfter in Hin. rewrite Hrun in Hin. simpl in Hin.
  unfold ConversationList.byRecency in Hin.
  apply (Permutation_in _ (stableSort_perm _ _)) in Hin.
  clear Hrun. induction Hall as [|item c data convs Hb _ IH]; [contradiction|].
  destruct Hin as [<-|Hin].
  - exists item. split; [now left | exact Hb].
  - destruct (IH Hin) as (item' & Hi & Hb'). exists item'. split; [now right | exact Hb'].
Qed.

Lemma unreadFlag_true_iff (me : Id) (last : option Db.MessageRow)
      (lastReadAt : option Timestamp) :
  ConversationList.unreadFlag me last lastReadAt = true <->
  exists m, last = Some m
            /\ Db.row_sender_id m <> me
            /\ (match lastReadAt with Some t => t | None => 0 end
                < Db.row_created_at m)%Z.
Proof.
  unfold ConversationList.unreadFlag. destruct last as [m|].
  - rewrite andb_true_iff, negb_true_iff, eqb_neq, Z.ltb_lt. split.
    + intros [H1 H2]. exists m. auto.
    + intros (m' & E & H1 & H2). injection E as <-. auto.
  - split; [discriminate | intros (m & E & _); discriminate].
Qed.

Lemma unreadFlag_implies_spec (me : Id) (cid : Id) (s : Db.Store)
      (lastReadAt : option Timestamp) :
  ConversationList.unreadFlag me (Db.lastMessage cid s) lastReadAt = true ->
  unreadBySpec me (Db.messagesOf cid s) lastReadAt = true.
Proof.
  intros H. apply unreadFlag_true_iff in H as (m & Hm & Hs & Ht).
  apply lastMessage_latest in Hm as [Hin _].
  unfold unreadBySpec. apply existsb_exists. exists m. split; [exact Hin|].
  apply andb_true_iff. split.
  - apply negb_true_iff. now apply eqb_neq.
  - now apply Z.ltb_lt.
Qed.

(** C1 (as amended).  In a load whose requests succeed, every listed
    conversation C was built from one of U's participant rows, and its
    [hasUnread] is true exactly when the most recent message of C (a
    message of C that none is newer than) is from another user and
    newer than that row's [lastReadAt], null read as 0.  A true flag
    implies the data model's derivation (some message of C from another
    user newer than [lastReadAt]), and a conversation without messages
    is not unread. *)
Theorem loaded_unread_flag_reads_last_message
        (user : User) (e : Env) (st : ConversationList.State)
        (conv : ConversationList.Conversation) :
  reliable e ->
  In conv (ConversationList.conversations
             (stateAfter (ConversationList.loadConversations user) e st)) ->
  exists item,
    In item (Db.participantsOfUser (user_id user) (store e))
    /\ Db.conv_id (snd item) = ConversationList.id conv
    /\ let msgs := Db.messagesOf (ConversationList.id conv) (store e) in
       let lastReadAt := Db.part_last_read_at (fst item) in
       (ConversationList.hasUnread conv = true <->
        exists m,
          Db.lastMessage (ConversationList.id conv) (store e) = Some m
          /\ In m msgs
          /\ (forall m', In m' msgs ->
                         (Db.row_created_at m' <= Db.row_created_at m)%Z)
          /\ Db.row_sender_id m <> user_id user
          /\ (match lastReadAt with Some t => t | None => 0 end
              < Db.row_created_at m)%Z)
       /\ (ConversationList.hasUnread conv = true ->
           unreadBySpec (user_id user) msgs lastReadAt = true)
       /\ (msgs = [] -> ConversationList.hasUnread conv = false).
Proof.
  intros He Hin.
  destruct (@loaded_entry_built user e st conv He Hin) as (item & Hitem & Hid & Hflag).
  exists item. split; [exact Hitem|]. split; [now symmetry|].
  simpl. rewrite Hflag, Hid. repeat split.
  - intros H. apply unreadFlag_true_iff in H as (m & Hm & Hs & Ht).
    exists m. destruct (lastMessage_latest _ _ Hm) as [Hi Hmax]. auto.
  - intros (m & Hm & _ & _ & Hs & Ht).
    apply unreadFlag_true_iff. exists m. auto.
  - apply unreadFlag_implies_spec.
  - intros Hnil. apply lastMessage_none in Hnil. now rewrite Hnil.
Qed.

Lemma reliable_sample (s : Db.Store) : reliable (Sample.env s []).
Proof. constructor. Defined.

Lemma loaded_unread_flag_reads_last_message_witness :
  let e := Sample.env (Sample.withMessages Sample.thread) [] in
  exists conv,
    reliable e
    /\ In conv (ConversationList.conversations Sample.loaded)
    /\ ConversationList.id conv = GLOBAL_CONVERSATION_ID
    /\ exists item,
        In item (Db.participantsOfUser (user_id Sample.alice) (store e))
        /\ Db.conv_id (snd item) = ConversationList.id conv.
Proof.
  intros e.
  destruct (ConversationList.conversations Sample.loaded)
    as [|c0 [|c1 l]] eqn:E; try discriminate E.
  exists c1.
  assert (Hin : In c1 (ConversationList.conversations
                         (stateAfter (ConversationList.loadConversations Sample.alice)
                                     e ConversationList.initial))).
  { change (In c1 (ConversationList.conversations Sample.loaded)).
    rewrite E. right. now left. }
  split; [apply reliable_sample|].
  split; [right; now left|].
  split; [now injection E as _ <- _|].
  destruct (@loaded_unread_flag_reads_last_message Sample.alice e
              ConversationList.initial c1 (reliable_sample _) Hin)
    as (item & H1 & H2 & _).
  exists item. split; assumption.
Defined.

(** C1 as first worded fails: in the direct conversation bob's message
    of time 18 is newer than alice's [lastReadAt] 15, so the data model's
    derivation gives unread, but the most recent message (time 20) is
    alice's own and the load computes [hasUnread = false]. *)
Lemma unread_flag_ignores_older_messages :
  map (fun c => (ConversationList.id c, ConversationList.hasUnread c))
      (ConversationList.conversations Sample.loaded)
  = [(Sample.direct, false); (GLOBAL_CONVERSATION_ID, true)]
  /\ map Db.part_last_read_at
         (filter (fun p => Js.eqb (Db.part_conversation_id p) Sample.direct
                           && Js.eqb (Db.part_user_id p) (user_id Sample.alice))
                 (Db.conversation_participants (Sample.withMessages Sample.thread)))
     = [Some 15%Z]
  /\ unreadBySpec (user_id Sample.alice)
                  (Db.messagesOf Sample.direct (Sample.withMessages Sample.thread))
                  (Some 15%Z) = true.
Proof. vm_compute. repeat split. Qed.



(** *** Finding or creating a direct conversation *)

Lemma find_app {A} (p : A -> bool) (l l' : list A) :
  find p (l ++ l') = match find p l with Some x => Some x | None => find p l' end.
Proof.
  induction l as [|x l IH]; simpl; [reflexivity|].
  now destruct (p x).
Qed.

Lemma increment_keys (k k' : Id) (counts : list (Id * nat)) :
  In k' (map fst (ConversationList.increment k counts)) ->
  k' = k \/ In k' (map fst counts).
Proof.
  induction counts as [|[j v] counts IH]; simpl.
  - intros [<-|[]]. now left.
  - destruct (Js.eqb j k); simpl; intros [<-|H]; auto.
    destruct (IH H); auto.
Qed.

Lemma conversationCounts_keys (rows : list (Id * bool)) (k : Id) :
  In k (map fst (ConversationList.conversationCounts rows)) ->
  In k (map fst rows).
Proof.
  unfold ConversationList.conversationCounts.
  assert (G : forall acc,
             In k (map fst (fold_left
                              (fun counts p =>
                                 if negb (snd p)
                                 then ConversationList.increment (fst p) counts
                                 else counts) rows acc)) ->
             In k (map fst acc) \/ In k (map fst rows)).
  { induction rows as [|[j g] rows IH]; intros acc H; simpl in *; [now left|].
    destruct (IH _ H) as [H'|H']; [|now auto].
    destruct g; simpl in H'; [now left|].
    destruct (increment_keys _ _ _ H') as [->|]; auto. }
  intros H. destruct (G [] H) as [[]|]; assumption.
Qed.

Lemma increment_new (k : Id) (counts : list (Id * nat)) :
  ~ In k (map fst counts) ->
  ConversationList.increment k counts = counts ++ [(k, 1)].
Proof.
  induction counts as [|[j v] counts IH]; simpl; intros H; [reflexivity|].
  destruct (Js.eqb j k) eqn:E.
  - apply eqb_eq in E. subst. tauto.
  - rewrite IH; tauto.
Qed.

Lemma increment_last (k : Id) (v : nat) (counts : list (Id * nat)) :
  ~ In k (map fst counts) ->
  ConversationList.increment k (counts ++ [(k, v)]) = counts ++ [(k, S v)].
Proof.
  induction counts as [|[j w] counts IH]; simpl; intros H.
  - now rewrite eqb_refl.
  - destruct (Js.eqb j k) eqn:E.
    + apply eqb_eq in E. subst. tauto.
    + rewrite IH; tauto.
Qed.

(** Two further rows of an unseen non-group conversation make it the
    one that is found, when none was found before. *)
Lemma findExisting_after_pair (rows : list (Id * bool)) (k : Id) :
  ~ In k (map fst rows) ->
  ConversationList.findExisting (ConversationList.conversationCounts rows) = None ->
  ConversationList.findExisting
    (ConversationList.conversationCounts (rows ++ [(k, false); (k, false)]))
  = Some k.
Proof.
  intros Hk Hnone.
  assert (Hkeys : ~ In k (map fst (ConversationList.conversationCounts rows))).
  { intros H. apply Hk. now apply conversationCounts_keys. }
  unfold ConversationList.conversationCounts in *.
  rewrite fold_left_app. simpl.
  rewrite (increment_new _ _ Hkeys), (increment_last _ _ _ Hkeys).
  unfold ConversationList.findExisting in *.
  rewrite find_app.
  destruct (find _ (fold_left _ rows [])); [discriminate|]. reflexivity.
Qed.

Lemma findExisting_key (counts : list (Id * nat)) (k : Id) :
  ConversationList.findExisting counts = Some k -> In (k, 2) counts.
Proof.
  unfold ConversationList.findExisting. intros H.
  destruct (find _ counts) as [[j v]|] eqn:E; [|discriminate].
  injection H as <-. apply find_some in E as [Hin Hv].
  simpl in Hv. apply Nat.eqb_eq in Hv. now subst.
Qed.

(** The search depends on the membership and on the conversations
    only. *)
Lemma pairParticipants_membership (me other : Id) (s : Db.Store) :
  Db.pairParticipants me other s =
  flat_map
    (fun k =>
       if Js.eqb (snd k) me || Js.eqb (snd k) other then
         match Db.findConversation s (fst k) with
         | Some c => [(fst k, Db.conv_is_group c)]
         | None => []
         end
       else [])
    (membership s).
Proof.
  unfold Db.pairParticipants, membership.
  induction (Db.conversation_participants s) as [|p l IH]; simpl; [reflexivity|].
  now rewrite IH.
Qed.

Lemma pairParticipants_same (me other : Id) (s s' : Db.Store) :
  membership s' = membership s ->
  Db.conversations s' = Db.conversations s ->
  Db.pairParticipants me other s' = Db.pairParticipants me other s.
Proof.
  intros Hm Hc. rewrite !pairParticipants_membership, Hm.
  apply flat_map_ext. intros k. unfold Db.findConversation. now rewrite Hc.
Qed.

Lemma pairParticipants_keys (me other : Id) (s : Db.Store) (k : Id) :
  In k (map fst (Db.pairParticipants me other s)) ->
  In k (map fst (membership s)).
Proof.
  rewrite pairParticipants_membership.
  intros H. apply in_map_iff in H as ([j g] & <- & H).
  apply in_flat_map in H as (m & Hm & H).
  destruct (Js.eqb (snd m) me || Js.eqb (snd m) other); [|contradiction].
  destruct (Db.findConversation s (fst m)); [|contradiction].
  destruct H as [H|[]]. injection H as <- _. simpl.
  now apply in_map.
Qed.

Lemma membership_updateLastRead (cid uid : Id) (t : Timestamp) (s : Db.Store) :
  membership (Db.updateLastRead cid uid t s) = membership s.
Proof.
  unfold membership, Db.updateLastRead; simpl.
  rewrite map_map. apply map_ext. intros p.
  now destruct (Js.eqb (Db.part_conversation_id p) cid
                && Js.eqb (Db.part_user_id p) uid).
Qed.

Section DirectChatFacts.
Variable user : User.

(** Selecting a conversation records it as the selected one and
    changes nothing in the store but a [last_read_at]. *)
Lemma handleSelectConversation_reliable (cid : Id) (e : Env)
      (st : ConversationList.State) :
  reliable e ->
  exists e' st',
    ConversationList.handleSelectConversation user cid (e, st) = (tt, (e', st'))
    /\ reliable e'
    /\ ConversationList.selectedConversation st' = Some cid
    /\ membership (store e') = membership (store e)
    /\ Db.conversations (store e') = Db.conversations (store e)
    /\ now e' = now e.
Proof.
  intros He.
  unfold ConversationList.handleSelectConversation,
    ConversationList.markConversationAsRead, bind, setState; simpl.
  destruct (negb (Js.truthy cid) || negb (Js.truthy (user_id user))).
  - eexists. eexists. split; [reflexivity|]. repeat split; trivial.
  - unfold clock, mutate; simpl. rewrite (request_reliable _ _ _ He). simpl.
    eexists. eexists. split; [reflexivity|].
    split; [now apply reliable_tl|]. simpl.
    repeat split. apply membership_updateLastRead.
Qed.

Lemma startDirectChat_reuses (other cid : Id) (e : Env)
      (st : ConversationList.State) :
  reliable e ->
  existingDirectChat (user_id user) other (store e) = Some cid ->
  Js.truthy cid = true ->
  exists e' st',
    ConversationList.startDirectChat user other (e, st) = (tt, (e', st'))
    /\ reliable e'
    /\ ConversationList.selectedConversation st' = Some cid
    /\ membership (store e') = membership (store e)
    /\ Db.conversations (store e') = Db.conversations (store e).
Proof.
  intros He Hfound Htruthy.
  unfold ConversationList.startDirectChat, bind.
  rewrite (query_reliable _ _ _ He).
  unfold existingDirectChat in Hfound.
  destruct (Db.pairParticipants (user_id user) other (store e)) as [|p ps] eqn:Hrows;
    [discriminate|].
  rewrite Hfound, Htruthy.
  match goal with
  | |- context [ConversationList.handleSelectConversation user cid (?e1, st)] =>
      destruct (@handleSelectConversation_reliable cid e1 st)
        as (e2 & st2 & -> & He2 & Hsel & Hm & Hc & _);
        [now apply reliable_tl|]
  end.
  eexists. eexists. split; [reflexivity|]. simpl in *.
  repeat split; trivial.
Qed.

Lemma startDirectChat_creates (other : Id) (e : Env)
      (st : ConversationList.State) :
  reliable e ->
  existingDirectChat (user_id user) other (store e) = None ->
  let cid := Db.uuid (Db.next_id (store e)) in
  exists e' st',
    ConversationList.startDirectChat user other (e, st) = (tt, (e', st'))
    /\ reliable e'
    /\ ConversationList.selectedConversation st' = Some cid
    /\ membership (store e')
       = membership (store e) ++ [(cid, user_id user); (cid, other)]
    /\ Db.conversations (store e')
       = Db.conversations (store e)
         ++ [{| Db.conv_id := cid; Db.conv_name := None;
                Db.conv_is_group := false; Db.conv_updated_at := now e |}].
Proof.
  intros He Hnone cid.
  unfold ConversationList.startDirectChat, bind.
  rewrite (query_reliable _ _ _ He).
  unfold existingDirectChat in Hnone.
  assert (Hex : match Db.pairParticipants (user_id user) other (store e) with
                | [] => None
                | p :: ps =>
                    ConversationList.findExisting
                      (ConversationList.conversationCounts (p :: ps))
                end = None).
  { destruct (Db.pairParticipants (user_id user) other (store e)); trivial. }
  rewrite Hex.
  unfold ConversationList.createOrAlert, ConversationList.createDirectChat,
    bind, clock, mutate.
  simpl.
  rewrite request_reliable by (now apply reliable_tl). simpl.
  rewrite request_reliable
    by (unfold reliable; simpl;
        apply (proj2 (reliable_next (proj2 (reliable_next He))))).
  simpl.
  match goal with
  | |- context [ConversationList.handleSelectConversation user ?c (?e1, st)] =>
      destruct (@handleSelectConversation_reliable c e1 st)
        as (e2 & st2 & -> & He2 & Hsel & Hm & Hc & _)
  end.
  { unfold reliable; simpl.
    apply (proj2 (reliable_next (proj2 (reliable_next (proj2 (reliable_next He)))))). }
  destruct (@loadConversations_reliable user e2 st2 He2)
    as (convs & e3 & -> & He3 & Hs3 & _).
  eexists. eexists. split; [reflexivity|]. simpl in *.
  rewrite Hs3, Hm, Hc. unfold membership. simpl.
  rewrite map_app. repeat split; trivial.
Qed.

End DirectChatFacts.

Lemma findConversation_absent (s : Db.Store) (cid : Id) :
  ~ In cid (map Db.conv_id (Db.conversations s)) ->
  Db.findConversation s cid = None.
Proof.
  unfold Db.findConversation.
  induction (Db.conversations s) as [|c l IH]; simpl; intros H; [reflexivity|].
  destruct (Js.eqb (Db.conv_id c) cid) eqn:E.
  - apply eqb_eq in E. tauto.
  - apply IH. tauto.
Qed.

(** The search after a fresh direct conversation with its two
    participant rows has been stored. *)
Lemma pairParticipants_after_create (me other : Id) (s s' : Db.Store)
      (t : Timestamp) :
  let cid := Db.uuid (Db.next_id s) in
  nextIdFresh s ->
  membership s' = membership s ++ [(cid, me); (cid, other)] ->
  Db.conversations s'
  = Db.conversations s
    ++ [{| Db.conv_id := cid; Db.conv_name := None;
           Db.conv_is_group := false; Db.conv_updated_at := t |}] ->
  Db.pairParticipants me other s'
  = Db.pairParticipants me other s ++ [(cid, false); (cid, false)].
Proof.
  intros cid [Hconv Hmem] Hm Hc.
  fold cid in Hconv, Hmem. clearbody cid.
  rewrite !pairParticipants_membership, Hm, flat_map_app.
  f_equal.
  - assert (G : forall l,
               ~ In cid (map fst l) ->
               flat_map
                 (fun k =>
                    if Js.eqb (snd k) me || Js.eqb (snd k) other then
                      match Db.findConversation s' (fst k) with
                      | Some c => [(fst k, Db.conv_is_group c)]
                      | None => []
                      end
                    else []) l
               = flat_map
                   (fun k =>
                      if Js.eqb (snd k) me || Js.eqb (snd k) other then
                        match Db.findConversation s (fst k) with
                        | Some c => [(fst k, Db.conv_is_group c)]
                        | None => []
                        end
                      else []) l).
    { induction l as [|k l IH]; simpl; intros Hk; [reflexivity|].
      rewrite IH by tauto. f_equal.
      destruct (Js.eqb (snd k) me || Js.eqb (snd k) other); [|reflexivity].
      unfold Db.findConversation. rewrite Hc, find_app.
      destruct (find _ (Db.conversations s)); [reflexivity|].
      simpl.
      destruct (Js.eqb cid (fst k)) eqn:E; [|reflexivity].
      apply eqb_eq in E. symmetry in E. tauto. }
    apply G. exact Hmem.
  - assert (F : Db.findConversation s' cid
                = Some {| Db.conv_id := cid; Db.conv_name := None;
                          Db.conv_is_group := false; Db.conv_updated_at := t |}).
    { unfold Db.findConversation. rewrite Hc, find_app.
      pose proof (findConversation_absent s cid Hconv) as Habs.
      unfold Db.findConversation in Habs. rewrite Habs. simpl.
      now rewrite eqb_refl. }
    simpl. rewrite !eqb_refl, F, orb_true_r. reflexivity.
Qed.

(** * Further properties of the handlers *)

(** ** Trimming *)

Lemma trimStart_split (s : jsstring) :
  exists w, s = w ++ Js.trimStart s /\ forallb Js.isWhiteSpace w = true.
Proof.
  induction s as [|c s (w & Hs & Hw)]; simpl.
  - exists []. now split.
  - destruct (Js.isWhiteSpace c) eqn:E.
    + exists (c :: w). simpl. rewrite E, Hw. split; [now f_equal | reflexivity].
    + exists []. now split.
Qed.

Lemma trimStart_fixed (s : jsstring) :
  (forall c r, s = c :: r -> Js.isWhiteSpace c = false) -> Js.trimStart s = s.
Proof.
  destruct s as [|c r]; simpl; intros H; [reflexivity|].
  now rewrite (H c r eq_refl).
Qed.

Lemma trim_trimmed (s : jsstring) : trimmed (Js.trim s).
Proof.
  unfold Js.trim, Js.trimEnd. set (a := Js.trimStart s). split.
  - intros c r Hc.
    destruct a as [|d a'] eqn:Ha; [discriminate|].
    pose proof (trimStart_head s Ha) as Hd.
    destruct (trimStart_split (rev (d :: a'))) as (w & Hw & Hws).
    remember (Js.trimStart (rev (d :: a'))) as t eqn:Ht. clear Ht.
    assert (Ht : t = rev (rev t)) by (symmetry; apply rev_involutive).
    rewrite Hc in Ht. simpl in Ht. subst t.
    simpl in Hw. rewrite app_assoc in Hw.
    now apply app_inj_tail in Hw as [_ <-].
  - intros c r Hc.
    apply (f_equal (@rev N)) in Hc. rewrite rev_involutive, rev_app_distr in Hc.
    simpl in Hc. now apply trimStart_head in Hc.
Qed.

Lemma trim_fixed (s : jsstring) : trimmed s -> Js.trim s = s.
Proof.
  intros [Hhead Hlast]. unfold Js.trim, Js.trimEnd.
  rewrite (trimStart_fixed Hhead).
  rewrite trimStart_fixed; [apply rev_involutive|].
  intros c r Hc. apply (Hlast c (rev r)).
  rewrite <- (rev_involutive s), Hc. reflexivity.
Qed.

(** ** Sending *)

Lemma sendMessage_result (cid : Id) (user : User) (e : Env) (st : Chat.State) :
  Js.truthy (Js.trim (Chat.newMessage st)) = true ->
  let text := Js.trim (Chat.newMessage st) in
  let tmp := Chat.tempMessage cid user text (now e) in
  let shown := Chat.setNewMessage []
                 (Chat.setMessages (fun prev => prev ++ [tmp]) st) in
  stateAfter (Chat.sendMessage cid user) e st
  = match fst (nextOutcome (outcomes e)) with
    | Succeeds => shown
    | Fails _ =>
        Chat.setMessages
          (filter (fun msg => negb (Js.eqb (Chat.id msg) (Chat.tempId (now e)))))
          shown
    end.
Proof.
  intros H text tmp shown.
  unfold stateAfter, Chat.sendMessage, bind, getState; simpl.
  rewrite H; simpl.
  unfold mutate, request; simpl.
  destruct (nextOutcome (outcomes e)) as [[|msg] rest]; reflexivity.
Qed.

Lemma filter_drops_appended (i : Id) (l : list Chat.Message) (tmp : Chat.Message) :
  Chat.id tmp = i ->
  ~ In i (map Chat.id l) ->
  filter (fun msg => negb (Js.eqb (Chat.id msg) i)) (l ++ [tmp]) = l.
Proof.
  intros Ht Hl. rewrite filter_app. simpl. rewrite Ht, eqb_refl. simpl.
  rewrite app_nil_r.
  induction l as [|m l IH]; simpl in *; [reflexivity|].
  destruct (Js.eqb (Chat.id m) i) eqn:E.
  - apply eqb_eq in E. tauto.
  - simpl. f_equal. apply IH. tauto.
Qed.

(** X1.  A send with a non-blank input whose insert succeeds stores
    one new row: its content is the trimmed input, which is not empty
    and has no white space at either end, its sender is the current
    user, its conversation the open one, and the input is cleared. *)
Theorem sendMessage_stores_trimmed_text
        (cid : Id) (user : User) (e : Env) (st : Chat.State) :
  Js.truthy (Js.trim (Chat.newMessage st)) = true ->
  fst (nextOutcome (outcomes e)) = Succeeds ->
  exists row,
    Db.messages (store (envAfter (Chat.sendMessage cid user) e st))
    = Db.messages (store e) ++ [row]
    /\ Db.row_content row = Js.trim (Chat.newMessage st)
    /\ Db.row_content row <> []
    /\ trimmed (Db.row_content row)
    /\ Db.row_sender_id row = user_id user
    /\ Db.row_conversation_id row = cid
    /\ Db.row_created_at row = now e
    /\ Chat.newMessage (stateAfter (Chat.sendMessage cid user) e st) = [].
Proof.
  intros Hin Hok.
  pose proof (@sendMessage_run cid user e st Hin) as Hrun.
  pose proof (@sendMessage_result cid user e st Hin) as Hres.
  simpl in Hrun, Hres. rewrite Hok in Hrun, Hres.
  destruct Hrun as (_ & Hs & _). rewrite Hs, Hres.
  eexists. split; [reflexivity|]. simpl. repeat split.
  - intros E. now rewrite E in Hin.
  - apply trim_trimmed.
  - apply trim_trimmed.
Qed.

Lemma sendMessage_stores_trimmed_text_witness :
  let e := Sample.env (Sample.withMessages Sample.thread) [] in
  let st := Chat.setNewMessage (Js.u "  see you at 5 ") Chat.initial in
  Js.truthy (Js.trim (Chat.newMessage st)) = true
  /\ fst (nextOutcome (outcomes e)) = Succeeds
  /\ exists row,
      Db.messages (store (envAfter (Chat.sendMessage Sample.direct Sample.alice) e st))
      = Db.messages (store e) ++ [row]
      /\ Db.row_content row = Js.u "see you at 5".
Proof.
  intros e st.
  split; [reflexivity|]. split; [reflexivity|].
  destruct (@sendMessage_stores_trimmed_text Sample.direct Sample.alice e st
              eq_refl eq_refl) as (row & H1 & H2 & _).
  exists row. split; [exact H1|]. rewrite H2. reflexivity.
Defined.

(** X2.  A send whose insert fails removes every entry that bears the
    temporary id and leaves the store alone; when no earlier entry bears
    that id the displayed list is exactly the one before the send.  The
    input stays cleared: the typed text is not put back. *)
Theorem sendMessage_failure_rolls_back
        (cid : Id) (user : User) (e : Env) (st : Chat.State) (reason : jsstring) :
  Js.truthy (Js.trim (Chat.newMessage st)) = true ->
  fst (nextOutcome (outcomes e)) = Fails reason ->
  let st1 := stateAfter (Chat.sendMessage cid user) e st in
  Chat.messages st1
  = filter (fun msg => negb (Js.eqb (Chat.id msg) (Chat.tempId (now e))))
           (Chat.messages st)
  /\ (~ In (Chat.tempId (now e)) (map Chat.id (Chat.messages st)) ->
      Chat.messages st1 = Chat.messages st)
  /\ Chat.newMessage st1 = []
  /\ Chat.loading st1 = Chat.loading st
  /\ store (envAfter (Chat.sendMessage cid user) e st) = store e.
Proof.
  intros Hin Hfail st1.
  pose proof (@sendMessage_run cid user e st Hin) as Hrun.
  pose proof (@sendMessage_result cid user e st Hin) as Hres.
  simpl in Hrun, Hres. rewrite Hfail in Hrun, Hres.
  destruct Hrun as (_ & Hs & _). unfold st1. rewrite Hres. simpl.
  repeat split; trivial.
  - rewrite filter_app. simpl. rewrite eqb_refl. simpl. apply app_nil_r.
  - intros Hnew. now apply filter_drops_appended.
Qed.

Lemma sendMessage_failure_rolls_back_witness :
  let e := Sample.env (Sample.withMessages Sample.thread)
                      [Fails (Js.u "offline")] in
  let st := Chat.setNewMessage (Js.u "are you there?")
              (stateAfter (Chat.loadMessages Sample.direct)
                          (Sample.env (Sample.withMessages Sample.thread) [])
                          Chat.initial) in
  Js.truthy (Js.trim (Chat.newMessage st)) = true
  /\ fst (nextOutcome (outcomes e)) = Fails (Js.u "offline")
  /\ ~ In (Chat.tempId (now e)) (map Chat.id (Chat.messages st))
  /\ Chat.messages (stateAfter (Chat.sendMessage Sample.direct Sample.alice) e st)
     = Chat.messages st.
Proof.
  intros e st.
  assert (H : ~ In (Chat.tempId (now e)) (map Chat.id (Chat.messages st))).
  { simpl. intuition discriminate. }
  split; [reflexivity|]. split; [reflexivity|]. split; [exact H|].
  exact (proj1 (proj2 (@sendMessage_failure_rolls_back Sample.direct Sample.alice
                         e st (Js.u "offline") eq_refl eq_refl)) H).
Defined.

Lemma ascending_snoc (l : list Chat.Message) (m : Chat.Message) :
  ascendingByCreatedAt l ->
  Forall (fun a => (Chat.created_at a <= Chat.created_at m)%Z) l ->
  ascendingByCreatedAt (l ++ [m]).
Proof.
  unfold ascendingByCreatedAt.
  induction 1 as [|a l Hs IH Ha]; simpl; intros Hm.
  - repeat constructor.
  - inversion Hm as [|? ? Ham Hl]; subst. constructor; [now apply IH|].
    apply Forall_app. split; [exact Ha | now constructor].
Qed.

(** X3.  The optimistic entry goes to the tail.  The displayed list
    stays sorted by [created_at] when no displayed message is stamped
    after the client's clock, and its ids stay distinct when no
    displayed entry already bears the temporary id. *)
Theorem sendMessage_append_keeps_order
        (cid : Id) (user : User) (e : Env) (st : Chat.State) :
  Js.truthy (Js.trim (Chat.newMessage st)) = true ->
  fst (nextOutcome (outcomes e)) = Succeeds ->
  ascendingByCreatedAt (Chat.messages st) ->
  Forall (fun m => (Chat.created_at m <= now e)%Z) (Chat.messages st) ->
  NoDup (map Chat.id (Chat.messages st)) ->
  ~ In (Chat.tempId (now e)) (map Chat.id (Chat.messages st)) ->
  let st1 := stateAfter (Chat.sendMessage cid user) e st in
  ascendingByCreatedAt (Chat.messages st1)
  /\ NoDup (map Chat.id (Chat.messages st1))
  /\ exists tmp, Chat.messages st1 = Chat.messages st ++ [tmp]
                 /\ Chat.id tmp = Chat.tempId (now e)
                 /\ Chat.sender_id tmp = user_id user.
Proof.
  intros Hin Hok Hsorted Hclock Hdistinct Hnew st1.
  pose proof (@sendMessage_result cid user e st Hin) as Hres.
  simpl in Hres. rewrite Hok in Hres. unfold st1. rewrite Hres. simpl.
  split; [|split].
  - now apply ascending_snoc.
  - rewrite map_app. simpl.
    apply (Permutation_NoDup (Permutation_cons_append _ _)).
    now constructor.
  - eexists. repeat split.
Qed.

Lemma sendMessage_append_keeps_order_witness :
  let e := Sample.env (Sample.withMessages Sample.thread) [] in
  let st := Chat.setNewMessage (Js.u "on my way")
              (stateAfter (Chat.loadMessages Sample.direct) e Chat.initial) in
  Js.truthy (Js.trim (Chat.newMessage st)) = true
  /\ fst (nextOutcome (outcomes e)) = Succeeds
  /\ Forall (fun m => (Chat.created_at m <= now e)%Z) (Chat.messages st)
  /\ ~ In (Chat.tempId (now e)) (map Chat.id (Chat.messages st))
  /\ ascendingByCreatedAt
       (Chat.messages (stateAfter (Chat.sendMessage Sample.direct Sample.alice) e st)).
Proof.
  intros e st.
  assert (H1 : ascendingByCreatedAt (Chat.messages st)).
  { apply selectMessages_ascending. }
  assert (H2 : Forall (fun m => (Chat.created_at m <= now e)%Z) (Chat.messages st)).
  { repeat constructor; discriminate. }
  assert (H3 : NoDup (map Chat.id (Chat.messages st))).
  { repeat constructor; simpl; intuition discriminate. }
  assert (H4 : ~ In (Chat.tempId (now e)) (map Chat.id (Chat.messages st))).
  { simpl. intuition discriminate. }
  split; [reflexivity|]. split; [reflexivity|]. split; [exact H2|].
  split; [exact H4|].
  exact (proj1 (@sendMessage_append_keeps_order Sample.direct Sample.alice e st
                  eq_refl eq_refl H1 H2 H3 H4)).
Defined.

(** ** Push events, polling and mounting *)

Lemma pollTick_failed_count (cid : Id) (e : Env) (st : Chat.State)
      (reason : jsstring) :
  fst (nextOutcome (outcomes e)) = Fails reason ->
  stateAfter (Chat.pollTick cid) e st = Chat.setLastMessageCount 0 st
  /\ trace (envAfter (Chat.pollTick cid) e st) = trace e ++ [SelectMessageIds cid].
Proof.
  intros Hfail. unfold stateAfter, envAfter, Chat.pollTick, bind, query, request.
  simpl. destruct (nextOutcome (outcomes e)) as [o rest]. simpl in Hfail.
  subst o. simpl. rewrite andb_false_r. simpl. now split.
Qed.

(** X4.  A tick whose count request fails reloads nothing and takes
    zero as the count seen, so the tick that follows it, even with a
    working store and new rows, does not reload either: the list is
    still the one before the failed tick. *)
Theorem pollTick_failure_blinds_next_tick
        (cid : Id) (e e2 : Env) (st : Chat.State) (reason : jsstring) :
  fst (nextOutcome (outcomes e)) = Fails reason ->
  reliable e2 ->
  let st1 := stateAfter (Chat.pollTick cid) e st in
  let st2 := stateAfter (Chat.pollTick cid) e2 st1 in
  Chat.lastMessageCount st1 = 0
  /\ Chat.messages st1 = Chat.messages st
  /\ trace (envAfter (Chat.pollTick cid) e st) = trace e ++ [SelectMessageIds cid]
  /\ Chat.messages st2 = Chat.messages st
  /\ Chat.lastMessageCount st2 = length (Db.messagesOf cid (store e2)).
Proof.
  intros Hfail He2 st1 st2.
  destruct (@pollTick_failed_count cid e st reason Hfail) as [Hst Htr].
  unfold st2, st1. rewrite Hst.
  repeat split; trivial.
  - now rewrite pollTick_from_zero_keeps_list.
  - now rewrite (pollTick_state cid _ He2).
Qed.

Lemma pollTick_failure_blinds_next_tick_witness :
  let e := Sample.env (Sample.withMessages Sample.thread) [Fails (Js.u "timeout")] in
  let e2 := Sample.env (Sample.withMessages
                          (Sample.thread
                             ++ [Sample.row "m4" "c0ffee" "b0b" "ping" 40])) [] in
  let st := Chat.setLastMessageCount 3
              (stateAfter (Chat.loadMessages Sample.direct)
                          (Sample.env (Sample.withMessages Sample.thread) [])
                          Chat.initial) in
  fst (nextOutcome (outcomes e)) = Fails (Js.u "timeout")
  /\ reliable e2
  /\ length (Db.messagesOf Sample.direct (store e2)) = 4
  /\ Chat.messages
       (stateAfter (Chat.pollTick Sample.direct) e2
                   (stateAfter (Chat.pollTick Sample.direct) e st))
     = Chat.messages st.
Proof.
  intros e e2 st.
  split; [reflexivity|]. split; [apply reliable_sample|]. split; [reflexivity|].
  exact (proj1 (proj2 (proj2 (proj2
    (@pollTick_failure_blinds_next_tick Sample.direct e e2 st (Js.u "timeout")
       eq_refl (reliable_sample _)))))).
Defined.

(** X5.  A push event reloads the thread only while the subscription
    flag is set: right after mounting, and after a CLOSED or
    CHANNEL_ERROR status, an insert event sends no request and changes
    nothing; after a SUBSCRIBED status an insert event whose load
    succeeds shows the stored thread.  A TIMED_OUT status leaves the
    flag as it is. *)
Theorem push_reloads_only_while_subscribed
        (cid : Id) (e e' : Env) (st : Chat.State) :
  Js.truthy cid = true ->
  let mounted := stateAfter (Chat.mount cid) e st in
  Chat.onInsert cid (e', mounted) = (tt, (e', mounted))
  /\ (forall status,
         status = Chat.CLOSED \/ status = Chat.CHANNEL_ERROR ->
         let closed := stateAfter (Chat.onStatus status) e st in
         Chat.onInsert cid (e', closed) = (tt, (e', closed)))
  /\ (fst (nextOutcome (outcomes e')) = Succeeds ->
      Chat.messages
        (stateAfter (Chat.onInsert cid) e'
                    (stateAfter (Chat.onStatus Chat.SUBSCRIBED) e st))
      = Chat.selectMessages cid (store e'))
  /\ Chat.isSubscribed (stateAfter (Chat.onStatus Chat.TIMED_OUT) e st)
     = Chat.isSubscribed st.
Proof.
  intros Hcid mounted. repeat split.
  - unfold mounted, stateAfter, Chat.mount, bind. rewrite Hcid. simpl.
    destruct (Chat.loadMessages cid (e, st)) as [r [e1 s1]]. reflexivity.
  - intros status [-> | ->]; reflexivity.
  - intros Hok.
    change (stateAfter (Chat.onInsert cid) e'
              (stateAfter (Chat.onStatus Chat.SUBSCRIBED) e st))
      with (stateAfter (Chat.loadMessages cid) e' (Chat.setIsSubscribed true st)).
    rewrite loadMessages_state, Hok. reflexivity.
Qed.

Lemma push_reloads_only_while_subscribed_witness :
  let e := Sample.env (Sample.withMessages Sample.thread) [] in
  Js.truthy Sample.direct = true
  /\ Chat.onInsert Sample.direct
       (e, stateAfter (Chat.mount Sample.direct) e Chat.initial)
     = (tt, (e, stateAfter (Chat.mount Sample.direct) e Chat.initial)).
Proof.
  intros e. split; [reflexivity|].
  exact (proj1 (@push_reloads_only_while_subscribed Sample.direct e e
                  Chat.initial eq_refl)).
Defined.

(** X6.  Mounting a thread without a conversation id sends nothing and
    changes nothing.  With an id it sends the one load request, resets
    the subscription flag and the polled count, and shows the stored
    thread with [loading] off when the load succeeds; when the load
    fails the list and [loading] are as before, so a thread whose
    first load fails stays in its loading state. *)
Theorem mount_loads_and_resets (cid : Id) (e : Env) (st : Chat.State) :
  let st1 := stateAfter (Chat.mount cid) e st in
  let e1 := envAfter (Chat.mount cid) e st in
  (Js.truthy cid = false -> st1 = st /\ e1 = e)
  /\ (Js.truthy cid = true ->
      trace e1 = trace e ++ [SelectMessages cid]
      /\ Chat.isSubscribed st1 = false
      /\ Chat.lastMessageCount st1 = 0
      /\ match fst (nextOutcome (outcomes e)) with
         | Succeeds =>
             Chat.messages st1 = Chat.selectMessages cid (store e)
             /\ Chat.loading st1 = false
         | Fails _ =>
             Chat.messages st1 = Chat.messages st
             /\ Chat.loading st1 = Chat.loading st
         end).
Proof.
  intros st1 e1. split; intros Hcid.
  - unfold st1, e1, stateAfter, envAfter, Chat.mount. rewrite Hcid. now split.
  - unfold st1, e1, stateAfter, envAfter, Chat.mount, Chat.loadMessages,
      bind, query, request.
    rewrite Hcid. simpl.
    destruct (nextOutcome (outcomes e)) as [[|reason] rest]; simpl; repeat split.
Qed.

Lemma mount_loads_and_resets_witness :
  let e := Sample.env (Sample.withMessages Sample.thread) [Fails (Js.u "offline")] in
  Js.truthy Sample.direct = true
  /\ Chat.loading (stateAfter (Chat.mount Sample.direct) e Chat.initial) = true
  /\ trace (envAfter (Chat.mount Sample.direct) e Chat.initial)
     = trace e ++ [SelectMessages Sample.direct].
Proof.
  intros e. split; [reflexivity|]. split; [reflexivity|].
  exact (proj1 (proj2 (@mount_loads_and_resets Sample.direct e Chat.initial)
                      eq_refl)).
Defined.

(** ** Selecting members of a group *)

Lemma includes_In (userId : Id) (l : list Id) :
  existsb (Js.eqb userId) l = true <-> In userId l.
Proof.
  rewrite existsb_exists. split.
  - intros (x & Hx & E). apply eqb_eq in E. now subst.
  - intros H. exists userId. split; [exact H | apply eqb_refl].
Qed.

Lemma In_without (userId other : Id) (l : list Id) :
  In other (filter (fun i => negb (Js.eqb i userId)) l)
  <-> In other l /\ other <> userId.
Proof.
  rewrite filter_In, negb_true_iff, eqb_neq. tauto.
Qed.

(** X7.  Ticking a user's box flips whether that user is selected and
    changes nobody else's selection; a selection without repetitions
    stays without repetitions; ticking twice a user who was not selected
    gives back the selection one started from; no other cell of the
    state is touched. *)
Theorem toggleUserSelection_flips
        (userId : Id) (st : ConversationList.State) :
  let st1 := ConversationList.toggleUserSelection userId st in
  (In userId (ConversationList.selectedUsers st1)
   <-> ~ In userId (ConversationList.selectedUsers st))
  /\ (forall other,
         other <> userId ->
         (In other (ConversationList.selectedUsers st1)
          <-> In other (ConversationList.selectedUsers st)))
  /\ (NoDup (ConversationList.selectedUsers st) ->
      NoDup (ConversationList.selectedUsers st1))
  /\ (~ In userId (ConversationList.selectedUsers st) ->
      ConversationList.selectedUsers
        (ConversationList.toggleUserSelection userId st1)
      = ConversationList.selectedUsers st)
  /\ ConversationList.setSelectedUsers
       (fun _ => ConversationList.selectedUsers st) st1 = st.
Proof.
  intros st1. unfold st1, ConversationList.toggleUserSelection. simpl.
  destruct (existsb (Js.eqb userId) (ConversationList.selectedUsers st)) eqn:E.
  - apply includes_In in E.
    split; [|split; [|split; [|split]]].
    + rewrite In_without. tauto.
    + intros other Hother. rewrite In_without. tauto.
    + intros H. now apply NoDup_filter.
    + tauto.
    + now destruct st.
  - assert (Hout : ~ In userId (ConversationList.selectedUsers st)).
    { intros H. apply includes_In in H. congruence. }
    split; [|split; [|split; [|split]]].
    + split; [tauto|]. intros _. apply in_or_app. right. now left.
    + intros other Hother. rewrite in_app_iff. simpl. intuition congruence.
    + intros H. apply (Permutation_NoDup (Permutation_cons_append _ _)).
      now constructor.
    + intros _.
      assert (Hin : existsb (Js.eqb userId)
                      (ConversationList.selectedUsers st ++ [userId]) = true).
      { apply includes_In, in_or_app. right. now left. }
      rewrite Hin, filter_app. simpl. rewrite eqb_refl. simpl.
      rewrite app_nil_r. apply forallb_filter_id.
      apply forallb_forall. intros x Hx. apply negb_true_iff, eqb_neq.
      intros ->. contradiction.
    + now destruct st.
Qed.

(** ** Loading the list when requests may fail *)

Lemma orDefault_truthy (a : option jsstring) (d : jsstring) :
  Js.truthy d = true -> Js.truthy (Js.orDefault a d) = true.
Proof.
  intros Hd. unfold Js.orDefault. destruct a as [s|]; [|exact Hd].
  destruct (Js.truthy s) eqn:E; [exact E | exact Hd].
Qed.

Section LoadFacts.
Variable user : User.

(** One item: a failed roster request drops it after that single
    request; otherwise it is kept, and a failed request for the last
    message only leaves it read and dated by the conversation row. *)
Lemma enrich_any (item : Db.ParticipantRow * Db.ConversationRow)
      (e : Env) (st : ConversationList.State) :
  exists r e',
    ConversationList.enrich user item (e, st) = (r, (e', st))
    /\ store e' = store e
    /\ match fst (nextOutcome (outcomes e)) with
       | Fails _ =>
           r = None
           /\ trace e' = trace e ++ [SelectRoster (Db.conv_id (snd item))]
       | Succeeds =>
           exists conv,
             r = Some conv
             /\ entryOf user (store e) item conv
             /\ trace e' = trace e ++ [SelectRoster (Db.conv_id (snd item));
                                       SelectLastMessage (Db.conv_id (snd item))]
             /\ match fst (nextOutcome (snd (nextOutcome (outcomes e)))) with
                | Fails _ =>
                    ConversationList.hasUnread conv = false
                    /\ ConversationList.lastMessageTime conv
                       = Db.conv_updated_at (snd item)
                | Succeeds =>
                    ConversationList.hasUnread conv
                    = ConversationList.unreadFlag (user_id user)
                        (Db.lastMessage (Db.conv_id (snd item)) (store e))
                        (Db.part_last_read_at (fst item))
                end
       end.
Proof.
  unfold ConversationList.enrich, bind, query, request. simpl.
  destruct (nextOutcome (outcomes e)) as [[|reason] rest]; simpl.
  - destruct (nextOutcome rest) as [[|reason] rest']; simpl;
      (eexists; eexists; split; [reflexivity|]; split; [reflexivity|];
       eexists; split; [reflexivity|]; split;
       [|split; [now rewrite <- app_assoc|]]).
    + unfold entryOf. simpl. repeat split; trivial.
      * destruct (negb (Db.conv_is_group (snd item))
                  && Nat.eqb (length (Db.roster (Db.conv_id (snd item)) (store e))) 2).
        { now apply orDefault_truthy. }
        destruct (Js.eqb (Db.conv_id (snd item)) GLOBAL_CONVERSATION_ID);
          [reflexivity | now apply orDefault_truthy].
      * destruct (Db.lastMessage (Db.conv_id (snd item)) (store e)) as [m|];
          [right; now exists m | now left].
    + reflexivity.
    + unfold entryOf. simpl. repeat split; trivial.
      * destruct (negb (Db.conv_is_group (snd item))
                  && Nat.eqb (length (Db.roster (Db.conv_id (snd item)) (store e))) 2).
        { now apply orDefault_truthy. }
        destruct (Js.eqb (Db.conv_id (snd item)) GLOBAL_CONVERSATION_ID);
          [reflexivity | now apply orDefault_truthy].
      * discriminate.
      * now left.
    + now split.
  - eexists. eexists. split; [reflexivity|]. split; [reflexivity|]. now split.
Qed.

Lemma enrichAll_any (data : list (Db.ParticipantRow * Db.ConversationRow))
      (e : Env) (st : ConversationList.State) :
  exists rs e',
    ConversationList.enrichAll user data (e, st) = (rs, (e', st))
    /\ store e' = store e
    /\ Forall2 (fun item r => forall conv, r = Some conv ->
                                           entryOf user (store e) item conv)
               data rs.
Proof.
  revert e. induction data as [|item data IH]; intros e; simpl.
  - exists [], e. repeat split. constructor.
  - unfold bind.
    destruct (enrich_any item e st) as (r & e1 & -> & Hs1 & Hr).
    destruct (IH e1) as (rs & e2 & -> & Hs2 & Hall).
    exists (r :: rs), e2. split; [reflexivity|]. split; [congruence|].
    constructor; [|now rewrite <- Hs1].
    intros conv ->.
    destruct (fst (nextOutcome (outcomes e))).
    + destruct Hr as (conv' & E & He & _). now injection E as <-.
    + destruct Hr as [E _]. discriminate.
Qed.

Lemma notNull_entries (s : Db.Store)
      (data : list (Db.ParticipantRow * Db.ConversationRow))
      (rs : list (option ConversationList.Conversation)) :
  Forall2 (fun item r => forall conv, r = Some conv -> entryOf user s item conv)
          data rs ->
  length (ConversationList.notNull rs) <= length data
  /\ forall conv, In conv (ConversationList.notNull rs) ->
                  exists item, In item data /\ entryOf user s item conv.
Proof.
  unfold ConversationList.notNull.
  induction 1 as [|item r data rs Hr _ [IHlen IHin]]; simpl.
  - split; [lia | contradiction].
  - rewrite length_app. split.
    + destruct r; simpl; lia.
    + intros conv Hin. apply in_app_or in Hin as [Hin|Hin].
      * destruct r as [c|]; [|contradiction]. destruct Hin as [<-|[]].
        exists item. split; [now left | now apply Hr].
      * destruct (IHin conv Hin) as (it & Hit & He).
        exists it. split; [now right | exact He].
Qed.

Lemma byRecency_descending (cs : list ConversationList.Conversation) :
  descendingByRecency (ConversationList.byRecency cs).
Proof.
  unfold descendingByRecency, ConversationList.byRecency.
  apply Sorted_StronglySorted.
  - intros a b c Hab Hbc. lia.
  - eapply Sorted_ind with
      (P := fun l => Sorted (fun a b => (ConversationList.lastMessageTime b
                                         <= ConversationList.lastMessageTime a)%Z) l).
    + constructor.
    + intros a k _ IH Hhd. constructor; [exact IH|].
      destruct Hhd as [|b k Hab]; constructor.
      apply (proj1 (Z.leb_le _ _)). exact Hab.
    + apply stableSort_sorted. intros a b H.
      apply Z.leb_le. apply Z.leb_gt in H. lia.
Qed.

Lemma loadConversations_any (e : Env) (st : ConversationList.State) :
  store (envAfter (ConversationList.loadConversations user) e st) = store e
  /\ match fst (nextOutcome (outcomes e)) with
     | Fails _ =>
         stateAfter (ConversationList.loadConversations user) e st
         = ConversationList.setLoading false st
         /\ trace (envAfter (ConversationList.loadConversations user) e st)
            = trace e ++ [SelectParticipantsOfUser (user_id user)]
     | Succeeds =>
         exists convs,
           stateAfter (ConversationList.loadConversations user) e st
           = ConversationList.setLoading false
               (ConversationList.setConversations
                  (fun _ => ConversationList.byRecency convs) st)
           /\ length convs
              <= length (Db.participantsOfUser (user_id user) (store e))
           /\ forall conv,
               In conv convs ->
               exists item,
                 In item (Db.participantsOfUser (user_id user) (store e))
                 /\ entryOf user (store e) item conv
     end.
Proof.
  unfold stateAfter, envAfter, ConversationList.loadConversations, bind, query,
    request. simpl.
  destruct (nextOutcome (outcomes e)) as [[|reason] rest]; simpl.
  - match goal with
    | |- context [ConversationList.enrichAll user ?d (?e1, st)] =>
        destruct (enrichAll_any d e1 st) as (rs & e2 & -> & Hs & Hall)
    end.
    simpl in *. split; [exact Hs|].
    destruct (notNull_entries Hall) as [Hlen Hin].
    exists (ConversationList.notNull rs). repeat split; assumption.
  - repeat split.
Qed.

End LoadFacts.

(** X8.  Whatever requests fail, a load ends with [loading] off and
    leaves the store alone.  When the first request succeeds the list
    it sets is ordered by [lastMessageTime], most recent first; when
    the first request fails the list is left as it was and no further
    request is sent. *)
Theorem loadConversations_orders_by_recency
        (user : User) (e : Env) (st : ConversationList.State) :
  let st1 := stateAfter (ConversationList.loadConversations user) e st in
  let e1 := envAfter (ConversationList.loadConversations user) e st in
  ConversationList.loading st1 = false
  /\ store e1 = store e
  /\ match fst (nextOutcome (outcomes e)) with
     | Succeeds => descendingByRecency (ConversationList.conversations st1)
     | Fails _ =>
         ConversationList.conversations st1 = ConversationList.conversations st
         /\ trace e1 = trace e ++ [SelectParticipantsOfUser (user_id user)]
     end.
Proof.
  intros st1 e1. destruct (loadConversations_any user e st) as [Hs Hrun].
  fold st1 e1 in Hs, Hrun.
  destruct (fst (nextOutcome (outcomes e))).
  - destruct Hrun as (convs & -> & _). simpl.
    repeat split; trivial. apply byRecency_descending.
  - destruct Hrun as [-> Htr]. simpl. repeat split; trivial.
Qed.

(** X9.  Failure of one item's requests stays with that item.  When
    the roster request of an item fails the item is dropped after that
    single request; when it succeeds the item is kept, and a failing
    request for its last message only leaves it not unread and dated
    by the conversation row's [updated_at].  The store is not
    written. *)
Theorem enrich_isolates_failures
        (user : User) (item : Db.ParticipantRow * Db.ConversationRow)
        (e : Env) (st : ConversationList.State) :
  let r := fst (ConversationList.enrich user item (e, st)) in
  let e1 := envAfter (ConversationList.enrich user item) e st in
  stateAfter (ConversationList.enrich user item) e st = st
  /\ store e1 = store e
  /\ (r = None <-> exists reason, fst (nextOutcome (outcomes e)) = Fails reason)
  /\ (r = None -> trace e1 = trace e ++ [SelectRoster (Db.conv_id (snd item))])
  /\ (forall conv reason,
         r = Some conv ->
         fst (nextOutcome (snd (nextOutcome (outcomes e)))) = Fails reason ->
         ConversationList.hasUnread conv = false
         /\ ConversationList.lastMessageTime conv = Db.conv_updated_at (snd item)
         /\ ConversationList.id conv = Db.conv_id (snd item)).
Proof.
  intros r e1. unfold r, e1, stateAfter, envAfter.
  destruct (enrich_any user item e st) as (r' & e' & -> & Hs & Hr). simpl.
  split; [reflexivity|]. split; [exact Hs|].
  destruct (fst (nextOutcome (outcomes e))) as [|reason0].
  - destruct Hr as (conv & -> & Hentry & _ & Hlast).
    split; [split; [discriminate | intros (? & ?); discriminate]|].
    split; [discriminate|].
    intros conv' reason E Hfail. injection E as <-.
    rewrite Hfail in Hlast. destruct Hlast as [H1 H2].
    repeat split; trivial. apply Hentry.
  - destruct Hr as [-> Htr].
    split; [split; [intros _; now exists reason0 | reflexivity]|].
    split; [intros _; exact Htr|].
    intros conv reason E. discriminate.
Qed.

(** X10.  After a load whose first request succeeded, every listed
    entry was built from one of the user's participant rows: it carries
    that conversation's id, name, group flag and [updated_at], counts
    the conversation's roster, has a non-empty title, is unread only if
    the most recent message qualifies, and is dated by that message or
    by the row.  The list never has more entries than the user has
    participant rows. *)
Theorem loadConversations_entries_from_rows
        (user : User) (e : Env) (st : ConversationList.State) :
  fst (nextOutcome (outcomes e)) = Succeeds ->
  let st1 := stateAfter (ConversationList.loadConversations user) e st in
  length (ConversationList.conversations st1)
  <= length (Db.participantsOfUser (user_id user) (store e))
  /\ forall conv,
      In conv (ConversationList.conversations st1) ->
      exists item,
        In item (Db.participantsOfUser (user_id user) (store e))
        /\ entryOf user (store e) item conv.
Proof.
  intros Hok st1. destruct (loadConversations_any user e st) as [_ Hrun].
  fold st1 in Hrun. rewrite Hok in Hrun.
  destruct Hrun as (convs & -> & Hlen & Hin). simpl.
  unfold ConversationList.byRecency. split.
  - now rewrite (Permutation_length (stableSort_perm _ convs)).
  - intros conv Hc. apply Hin.
    now apply (Permutation_in _ (stableSort_perm _ convs)) in Hc.
Qed.

Lemma loadConversations_entries_from_rows_witness :
  let e := Sample.env (Sample.withMessages Sample.thread)
                      [Succeeds; Fails (Js.u "roster"); Succeeds;
                       Fails (Js.u "last message")] in
  let st1 := stateAfter (ConversationList.loadConversations Sample.alice)
                        e ConversationList.initial in
  fst (nextOutcome (outcomes e)) = Succeeds
  /\ map (fun c => (ConversationList.id c, ConversationList.hasUnread c))
         (ConversationList.conversations st1)
     = [(GLOBAL_CONVERSATION_ID, false)]
  /\ length (ConversationList.conversations st1)
     <= length (Db.participantsOfUser (user_id Sample.alice) (store e)).
Proof.
  intros e st1. split; [reflexivity|]. split; [reflexivity|].
  exact (proj1 (@loadConversations_entries_from_rows Sample.alice e
                  ConversationList.initial eq_refl)).
Defined.

Lemma builtFrom_ids (user : User) (s : Db.Store)
      (data : list (Db.ParticipantRow * Db.ConversationRow))
      (convs : list ConversationList.Conversation) :
  Forall2 (builtFrom user s) data convs ->
  map ConversationList.id convs = map (fun item => Db.conv_id (snd item)) data.
Proof.
  induction 1 as [|item conv data convs [Hid _] _ IH]; simpl; congruence.
Qed.

(** X11.  A load in which no request fails lists every participant row
    of the user exactly once: the displayed ids are a rearrangement of
    the conversation ids of those rows. *)
Theorem loadConversations_lists_every_row
        (user : User) (e : Env) (st : ConversationList.State) :
  reliable e ->
  let st1 := stateAfter (ConversationList.loadConversations user) e st in
  Permutation (displayedOrder st1)
              (map (fun item => Db.conv_id (snd item))
                   (Db.participantsOfUser (user_id user) (store e)))
  /\ length (ConversationList.conversations st1)
     = length (Db.participantsOfUser (user_id user) (store e)).
Proof.
  intros He st1.
  destruct (@loadConversations_reliable user e st He)
    as (convs & e' & Hrun & _ & _ & Hall).
  unfold st1, stateAfter, displayedOrder. rewrite Hrun. simpl.
  unfold ConversationList.byRecency.
  rewrite <- (builtFrom_ids Hall). split.
  - apply Permutation_map, stableSort_perm.
  - rewrite (Permutation_length (stableSort_perm _ convs)).
    rewrite <- (length_map ConversationList.id), (builtFrom_ids Hall).
    apply length_map.
Qed.

Lemma loadConversations_lists_every_row_witness :
  let e := Sample.env (Sample.withMessages Sample.thread) [] in
  reliable e
  /\ length (ConversationList.conversations
               (stateAfter (ConversationList.loadConversations Sample.alice)
                           e ConversationList.initial))
     = length (Db.participantsOfUser (user_id Sample.alice) (store e)).
Proof.
  intros e. split; [apply reliable_sample|].
  exact (proj2 (@loadConversations_lists_every_row Sample.alice e
                  ConversationList.initial (reliable_sample _))).
Defined.

(** ** Reading a conversation *)

Lemma findConversation_id (s : Db.Store) (cid : Id) (c : Db.ConversationRow) :
  Db.findConversation s cid = Some c -> Db.conv_id c = cid.
Proof.
  unfold Db.findConversation. intros H.
  apply find_some in H as [_ H]. now apply eqb_eq.
Qed.

(** After the write of [markConversationAsRead], each row the list
    load selects for that user and conversation carries the new
    [last_read_at]. *)
Lemma participantsOfUser_after_read (cid uid : Id) (t : Timestamp)
      (s : Db.Store) (item : Db.ParticipantRow * Db.ConversationRow) :
  In item (Db.participantsOfUser uid (Db.updateLastRead cid uid t s)) ->
  Db.conv_id (snd item) = cid ->
  Db.part_last_read_at (fst item) = Some t.
Proof.
  unfold Db.participantsOfUser. intros Hin Hcid.
  apply in_flat_map in Hin as (p' & Hp' & Hitem).
  destruct (Js.eqb (Db.part_user_id p') uid) eqn:Hu; [|contradiction].
  destruct (Db.findConversation _ (Db.part_conversation_id p')) as [c|] eqn:Hc;
    [|contradiction].
  destruct Hitem as [<-|[]]. simpl in *.
  apply findConversation_id in Hc. rewrite Hcid in Hc.
  apply in_map_iff in Hp' as (p & <- & _).
  destruct (Js.eqb (Db.part_conversation_id p) cid
            && Js.eqb (Db.part_user_id p) uid) eqn:E; [reflexivity|].
  simpl in Hc, Hu. subst cid. now rewrite eqb_refl, Hu in E.
Qed.

(** X12.  Reading and then reloading agree.  After a
    [markConversationAsRead] whose write succeeded, a load of the list
    against the store it left, with no failing request, shows every
    entry of that conversation as read, provided no message of the
    conversation is stamped after the time of the read. *)
Theorem markRead_then_reload_shows_read
        (user : User) (cid : Id) (e e2 : Env)
        (st st2 : ConversationList.State)
        (conv : ConversationList.Conversation) :
  Js.truthy cid = true ->
  Js.truthy (user_id user) = true ->
  fst (nextOutcome (outcomes e)) = Succeeds ->
  Forall (fun m => (Db.row_created_at m <= now e)%Z)
         (Db.messagesOf cid (store e)) ->
  reliable e2 ->
  store e2
  = store (envAfter (ConversationList.markConversationAsRead user cid) e st) ->
  In conv (ConversationList.conversations
             (stateAfter (ConversationList.loadConversations user) e2 st2)) ->
  ConversationList.id conv = cid ->
  ConversationList.hasUnread conv = false.
Proof.
  intros Hc Hu Hok Hold He2 Hs2 Hin Hid.
  pose proof (@markConversationAsRead_run user cid e st Hc Hu) as Hrun.
  rewrite Hok in Hrun. destruct Hrun as [_ Hstore]. rewrite Hstore in Hs2.
  destruct (@loaded_entry_built user e2 st2 conv He2 Hin)
    as (item & Hitem & Hcv & Hflag).
  rewrite Hs2 in Hitem, Hflag. rewrite Hid in Hcv.
  rewrite (@participantsOfUser_after_read _ _ _ _ _ Hitem (eq_sym Hcv)) in Hflag.
  rewrite Hflag, <- Hcv.
  change (Db.lastMessage cid (Db.updateLastRead cid (user_id user) (now e) (store e)))
    with (Db.lastMessage cid (store e)).
  destruct (Db.lastMessage cid (store e)) as [m|] eqn:Hm; [|reflexivity].
  apply lastMessage_latest in Hm as [Hm _].
  rewrite Forall_forall in Hold. specialize (Hold m Hm).
  simpl. apply andb_false_iff. right. apply Z.ltb_ge. exact Hold.
Qed.

Lemma markRead_then_reload_shows_read_witness :
  let e := Sample.env (Sample.withMessages Sample.thread) [] in
  let e2 := Sample.env
              (store (envAfter (ConversationList.markConversationAsRead
                                  Sample.alice GLOBAL_CONVERSATION_ID)
                               e Sample.loaded)) [] in
  Js.truthy GLOBAL_CONVERSATION_ID = true
  /\ Js.truthy (user_id Sample.alice) = true
  /\ fst (nextOutcome (outcomes e)) = Succeeds
  /\ Forall (fun m => (Db.row_created_at m <= now e)%Z)
            (Db.messagesOf GLOBAL_CONVERSATION_ID (store e))
  /\ reliable e2
  /\ map ConversationList.hasUnread
         (ConversationList.conversations Sample.loaded) = [false; true]
  /\ forall conv,
      In conv (ConversationList.conversations
                 (stateAfter (ConversationList.loadConversations Sample.alice)
                             e2 Sample.loaded)) ->
      ConversationList.id conv = GLOBAL_CONVERSATION_ID ->
      ConversationList.hasUnread conv = false.
Proof.
  intros e e2.
  assert (H : Forall (fun m => (Db.row_created_at m <= now e)%Z)
                     (Db.messagesOf GLOBAL_CONVERSATION_ID (store e))).
  { repeat constructor; discriminate. }
  split; [reflexivity|]. split; [reflexivity|]. split; [reflexivity|].
  split; [exact H|]. split; [apply reliable_sample|]. split; [reflexivity|].
  intros conv Hin Hid.
  exact (@markRead_then_reload_shows_read Sample.alice GLOBAL_CONVERSATION_ID
           e e2 Sample.loaded Sample.loaded conv eq_refl eq_refl eq_refl H
           (reliable_sample _) eq_refl Hin Hid).
Defined.

(** X13.  Choosing a conversation always records it as the selected
    one, whether the read-state write succeeds, fails or is skipped.
    The write is skipped, and no request sent, when the id is empty or
    no user id is known; when the write fails the unread flags and the
    store are as before.  In no case are participants, conversations
    or messages added or removed. *)
Theorem handleSelectConversation_always_selects
        (user : User) (cid : Id) (e : Env) (st : ConversationList.State) :
  let st1 := stateAfter (ConversationList.handleSelectConversation user cid) e st in
  let e1 := envAfter (ConversationList.handleSelectConversation user cid) e st in
  ConversationList.selectedConversation st1 = Some cid
  /\ membership (store e1) = membership (store e)
  /\ Db.conversations (store e1) = Db.conversations (store e)
  /\ Db.messages (store e1) = Db.messages (store e)
  /\ (Js.truthy cid = false \/ Js.truthy (user_id user) = false ->
      e1 = e
      /\ ConversationList.conversations st1 = ConversationList.conversations st)
  /\ (forall reason,
         fst (nextOutcome (outcomes e)) = Fails reason ->
         store e1 = store e
         /\ ConversationList.conversations st1
            = ConversationList.conversations st).
Proof.
  intros st1 e1.
  unfold st1, e1, stateAfter, envAfter,
    ConversationList.handleSelectConversation,
    ConversationList.markConversationAsRead, bind, setState. simpl.
  destruct (Js.truthy cid); destruct (Js.truthy (user_id user)); simpl.
  all: try (unfold clock, mutate, request; simpl;
            destruct (nextOutcome (outcomes e)) as [[|reason0] rest]; simpl).
  all: repeat split; trivial;
    try apply membership_updateLastRead;
    try (intros [H|H]; discriminate);
    try discriminate;
    try (match goal with H : _ \/ _ |- _ => destruct H; discriminate end).
Qed.

(** ** Creating a group *)

Lemma enrolment_updateLastRead (cid uid : Id) (t : Timestamp) (s : Db.Store) :
  enrolment (Db.updateLastRead cid uid t s) = enrolment s.
Proof.
  unfold enrolment, Db.updateLastRead; simpl.
  rewrite map_map. apply map_ext. intros p.
  now destruct (Js.eqb (Db.part_conversation_id p) cid
                && Js.eqb (Db.part_user_id p) uid).
Qed.

Lemma handleSelectConversation_enrolment (user : User) (cid : Id) (e : Env)
      (st : ConversationList.State) :
  reliable e ->
  exists e' st',
    ConversationList.handleSelectConversation user cid (e, st) = (tt, (e', st'))
    /\ reliable e'
    /\ ConversationList.selectedConversation st' = Some cid
    /\ enrolment (store e') = enrolment (store e)
    /\ Db.conversations (store e') = Db.conversations (store e)
    /\ alerts e' = alerts e.
Proof.
  intros He.
  unfold ConversationList.handleSelectConversation,
    ConversationList.markConversationAsRead, bind, setState; simpl.
  destruct (negb (Js.truthy cid) || negb (Js.truthy (user_id user))).
  - eexists. eexists. split; [reflexivity|]. repeat split; trivial.
  - unfold clock, mutate; simpl. rewrite (request_reliable _ _ _ He). simpl.
    eexists. eexists. split; [reflexivity|].
    split; [now apply reliable_tl|]. simpl.
    repeat split. apply enrolment_updateLastRead.
Qed.

(** X14.  With at least two selected members, a non-blank name and no
    failing request, [createGroupChat] stores one group conversation
    named by the trimmed input, and one participant row per person: the
    creator as the only admin, then every selected user as a member, in
    the order selected.  It selects the new conversation, closes the
    dialog and empties the form. *)
Theorem createGroupChat_creates_group
        (user : User) (e : Env) (st : ConversationList.State) :
  reliable e ->
  2 <= length (ConversationList.selectedUsers st) ->
  Js.truthy (Js.trim (ConversationList.groupName st)) = true ->
  let cid := Db.uuid (Db.next_id (store e)) in
  let st1 := stateAfter (ConversationList.createGroupChat user) e st in
  let e1 := envAfter (ConversationList.createGroupChat user) e st in
  ConversationList.selectedConversation st1 = Some cid
  /\ ConversationList.selectedUsers st1 = []
  /\ ConversationList.groupName st1 = []
  /\ ConversationList.showGroupChatModal st1 = false
  /\ Db.conversations (store e1)
     = Db.conversations (store e)
       ++ [{| Db.conv_id := cid;
              Db.conv_name := Some (Js.trim (ConversationList.groupName st));
              Db.conv_is_group := true;
              Db.conv_updated_at := now e |}]
  /\ enrolment (store e1)
     = enrolment (store e)
       ++ (cid, user_id user, Some Db.admin)
          :: map (fun userId => (cid, userId, Some Db.member))
                 (ConversationList.selectedUsers st)
  /\ trimmed (Js.trim (ConversationList.groupName st)).
Proof.
  intros He Hlen Hname cid st1 e1.
  unfold st1, e1, stateAfter, envAfter, ConversationList.createGroupChat,
    bind, getState, clock, mutate. simpl.
  assert (Hl : (length (ConversationList.selectedUsers st) <? 2)%nat = false)
    by (apply Nat.ltb_ge; lia).
  rewrite Hl, Hname. simpl.
  rewrite (request_reliable _ _ _ He). simpl.
  rewrite request_reliable by (now apply reliable_tl). simpl.
  match goal with
  | |- context [ConversationList.handleSelectConversation user ?c (?e2, st)] =>
      destruct (@handleSelectConversation_enrolment user c e2 st)
        as (e3 & st3 & -> & He3 & Hsel & Hen & Hcv & _)
  end.
  { unfold reliable; simpl.
    apply (proj2 (reliable_next (proj2 (reliable_next He)))). }
  destruct (@loadConversations_reliable user e3 st3 He3)
    as (convs & e4 & -> & _ & Hs4 & _).
  simpl in *. rewrite Hs4, Hen, Hcv. unfold enrolment. simpl.
  rewrite map_app. simpl. rewrite map_map. simpl.
  repeat split; trivial; apply trim_trimmed.
Qed.

Lemma createGroupChat_creates_group_witness :
  let e := Sample.env (Sample.withMessages Sample.thread) [] in
  let st := ConversationList.setGroupName (Js.u " Lunch ")
              (ConversationList.setSelectedUsers
                 (fun _ => [Sample.bob; Js.u "ca701"]) Sample.loaded) in
  reliable e
  /\ 2 <= length (ConversationList.selectedUsers st)
  /\ Js.truthy (Js.trim (ConversationList.groupName st)) = true
  /\ ConversationList.selectedConversation
       (stateAfter (ConversationList.createGroupChat Sample.alice) e st)
     = Some (Db.uuid 40).
Proof.
  intros e st.
  assert (H : 2 <= length (ConversationList.selectedUsers st)) by (simpl; lia).
  split; [apply reliable_sample|]. split; [exact H|]. split; [reflexivity|].
  exact (proj1 (@createGroupChat_creates_group Sample.alice e st
                  (reliable_sample _) H eq_refl)).
Defined.

(** X15.  A failing insert ends [createGroupChat] with the alert
    "Failed to create group chat" and with the form, the dialog and the
    selection untouched.  When the conversation insert fails nothing is
    stored.  When the participant insert fails the conversation row
    stored just before stays in the store, without any participant
    row: nothing removes it. *)
Theorem createGroupChat_failure_keeps_form
        (user : User) (e : Env) (st : ConversationList.State)
        (reason : jsstring) :
  2 <= length (ConversationList.selectedUsers st) ->
  Js.truthy (Js.trim (ConversationList.groupName st)) = true ->
  let st1 := stateAfter (ConversationList.createGroupChat user) e st in
  let e1 := envAfter (ConversationList.createGroupChat user) e st in
  (fst (nextOutcome (outcomes e)) = Fails reason ->
   st1 = st /\ store e1 = store e
   /\ alerts e1 = alerts e ++ [Js.u "Failed to create group chat"])
  /\ (fst (nextOutcome (outcomes e)) = Succeeds ->
      fst (nextOutcome (snd (nextOutcome (outcomes e)))) = Fails reason ->
      st1 = st
      /\ alerts e1 = alerts e ++ [Js.u "Failed to create group chat"]
      /\ Db.conversation_participants (store e1)
         = Db.conversation_participants (store e)
      /\ Db.conversations (store e1)
         = Db.conversations (store e)
           ++ [{| Db.conv_id := Db.uuid (Db.next_id (store e));
                  Db.conv_name := Some (Js.trim (ConversationList.groupName st));
                  Db.conv_is_group := true;
                  Db.conv_updated_at := now e |}]).
Proof.
  intros Hlen Hname st1 e1.
  unfold st1, e1, stateAfter, envAfter, ConversationList.createGroupChat,
    bind, getState, clock, mutate, request. simpl.
  assert (Hl : (length (ConversationList.selectedUsers st) <? 2)%nat = false)
    by (apply Nat.ltb_ge; lia).
  rewrite Hl, Hname. simpl.
  destruct (nextOutcome (outcomes e)) as [[|r1] rest]; simpl.
  - split; [discriminate|]. intros _.
    destruct (nextOutcome rest) as [[|r2] rest']; simpl; [discriminate|].
    intros _. repeat split.
  - split; [|discriminate]. intros _. repeat split.
Qed.

Lemma createGroupChat_failure_keeps_form_witness :
  let e := Sample.env (Sample.withMessages Sample.thread)
                      [Succeeds; Fails (Js.u "row level security")] in
  let st := ConversationList.setGroupName (Js.u "Lunch")
              (ConversationList.setSelectedUsers
                 (fun _ => [Sample.bob; Js.u "ca701"]) Sample.loaded) in
  2 <= length (ConversationList.selectedUsers st)
  /\ Js.truthy (Js.trim (ConversationList.groupName st)) = true
  /\ fst (nextOutcome (outcomes e)) = Succeeds
  /\ fst (nextOutcome (snd (nextOutcome (outcomes e))))
     = Fails (Js.u "row level security")
  /\ stateAfter (ConversationList.createGroupChat Sample.alice) e st = st
  /\ length (Db.conversations
               (store (envAfter (ConversationList.createGroupChat Sample.alice) e st)))
     = 3.
Proof.
  intros e st.
  assert (H : 2 <= length (ConversationList.selectedUsers st)) by (simpl; lia).
  split; [exact H|]. split; [reflexivity|]. split; [reflexivity|].
  split; [reflexivity|].
  split; [|reflexivity].
  exact (proj1 (proj2 (@createGroupChat_failure_keeps_form Sample.alice e st
                         (Js.u "row level security") H eq_refl)
                      eq_refl eq_refl)).
Defined.

(** ** Starting a direct conversation when requests fail *)

Section DirectChatFailures.
Variable user : User.
Variable other : Id.

(** With no conversation found, or with a failed search,
    [startDirectChat] goes on to create one. *)
Lemma startDirectChat_goes_to_create (e : Env) (st : ConversationList.State) :
  match fst (nextOutcome (outcomes e)) with
  | Succeeds => existingDirectChat (user_id user) other (store e) = None
  | Fails _ => True
  end ->
  ConversationList.startDirectChat user other (e, st)
  = ConversationList.createOrAlert user other
      ({| store := store e;
          outcomes := snd (nextOutcome (outcomes e));
          trace := trace e ++ [SelectPairParticipants (user_id user) other];
          alerts := alerts e; timers := timers e; now := now e |}, st).
Proof.
  unfold ConversationList.startDirectChat, bind, query, request. simpl.
  destruct (nextOutcome (outcomes e)) as [[|reason] rest]; simpl; [|reflexivity].
  unfold existingDirectChat. intros Hnone.
  destruct (Db.pairParticipants (user_id user) other (store e)) as [|p ps];
    [reflexivity|].
  now rewrite Hnone.
Qed.

Lemma createOrAlert_conversation_fails (e : Env) (st : ConversationList.State)
      (reason : jsstring) :
  fst (nextOutcome (outcomes e)) = Fails reason ->
  stateAfter (ConversationList.createOrAlert user other) e st = st
  /\ store (envAfter (ConversationList.createOrAlert user other) e st) = store e
  /\ alerts (envAfter (ConversationList.createOrAlert user other) e st)
     = alerts e ++ [startFailure reason].
Proof.
  unfold stateAfter, envAfter, ConversationList.createOrAlert,
    ConversationList.createDirectChat, bind, clock, request. simpl.
  destruct (nextOutcome (outcomes e)) as [o rest]. simpl. intros ->. simpl.
  repeat split.
Qed.

Lemma createOrAlert_participants_fail (e : Env) (st : ConversationList.State)
      (reason : jsstring) :
  fst (nextOutcome (outcomes e)) = Succeeds ->
  fst (nextOutcome (snd (nextOutcome (outcomes e)))) = Fails reason ->
  stateAfter (ConversationList.createOrAlert user other) e st = st
  /\ store (envAfter (ConversationList.createOrAlert user other) e st)
     = snd (Db.insertConversation false None (now e) (store e))
  /\ alerts (envAfter (ConversationList.createOrAlert user other) e st)
     = alerts e ++ [startFailure reason].
Proof.
  unfold stateAfter, envAfter, ConversationList.createOrAlert,
    ConversationList.createDirectChat, bind, clock, mutate, request. simpl.
  destruct (nextOutcome (outcomes e)) as [o rest]. simpl. intros ->. simpl.
  destruct (nextOutcome rest) as [o' rest']. simpl. intros ->. simpl.
  repeat split.
Qed.

Lemma createOrAlert_reliable (e : Env) (st : ConversationList.State) :
  reliable e ->
  let cid := Db.uuid (Db.next_id (store e)) in
  exists e' st',
    ConversationList.createOrAlert user other (e, st) = (tt, (e', st'))
    /\ ConversationList.selectedConversation st' = Some cid
    /\ membership (store e')
       = membership (store e) ++ [(cid, user_id user); (cid, other)]
    /\ Db.conversations (store e')
       = Db.conversations (store e)
         ++ [{| Db.conv_id := cid; Db.conv_name := None;
                Db.conv_is_group := false; Db.conv_updated_at := now e |}].
Proof.
  intros He cid.
  unfold ConversationList.createOrAlert, ConversationList.createDirectChat,
    bind, clock, mutate.
  simpl.
  rewrite (request_reliable _ _ _ He). simpl.
  rewrite request_reliable by (now apply reliable_tl). simpl.
  match goal with
  | |- context [ConversationList.handleSelectConversation user ?c (?e1, st)] =>
      destruct (@handleSelectConversation_reliable user c e1 st)
        as (e2 & st2 & -> & He2 & Hsel & Hm & Hc & _);
        [unfold reliable; simpl;
         apply (proj2 (reliable_next (proj2 (reliable_next He))))|]
  end.
  destruct (@loadConversations_reliable user e2 st2 He2)
    as (convs & e3 & -> & _ & Hs3 & _).
  eexists. eexists. split; [reflexivity|]. simpl in *.
  rewrite Hs3, Hm, Hc. unfold membership. simpl. rewrite map_app.
  repeat split; trivial.
Qed.

End DirectChatFailures.

(** *** What the search counts *)

Lemma countOf_increment (k k' : Id) (counts : list (Id * nat)) :
  countOf k' (ConversationList.increment k counts)
  = if Js.eqb k k' then S (countOf k' counts) else countOf k' counts.
Proof.
  unfold countOf.
  induction counts as [|[j v] counts IH]; simpl.
  - now destruct (Js.eqb k k').
  - destruct (Js.eqb j k) eqn:Ejk; simpl.
    + apply eqb_eq in Ejk. subst j.
      now destruct (Js.eqb k k').
    + destruct (Js.eqb j k') eqn:Ejk'; simpl; [|exact IH].
      apply eqb_eq in Ejk'. subst j.
      assert (E : Js.eqb k k' = false).
      { apply eqb_neq. intros ->. now rewrite eqb_refl in Ejk. }
      now rewrite E.
Qed.

Lemma countOf_conversationCounts (k : Id) (rows : list (Id * bool)) :
  countOf k (ConversationList.conversationCounts rows) = nonGroupRows k rows.
Proof.
  unfold ConversationList.conversationCounts.
  assert (G : forall acc,
             countOf k (fold_left
                          (fun counts p =>
                             if negb (snd p)
                             then ConversationList.increment (fst p) counts
                             else counts) rows acc)
             = countOf k acc + nonGroupRows k rows).
  { unfold nonGroupRows.
    induction rows as [|[j g] rows IH]; intros acc; simpl; [lia|].
    rewrite IH. destruct g; simpl.
    - rewrite andb_false_r. lia.
    - rewrite countOf_increment, andb_true_r.
      destruct (Js.eqb j k); simpl; lia. }
  rewrite G. reflexivity.
Qed.

Lemma increment_distinct (k : Id) (counts : list (Id * nat)) :
  NoDup (map fst counts) ->
  NoDup (map fst (ConversationList.increment k counts)).
Proof.
  induction counts as [|[j v] counts IH]; simpl; intros H.
  - repeat constructor. intros [].
  - apply NoDup_cons_iff in H as [Hj H].
    destruct (Js.eqb j k) eqn:E; simpl.
    + now constructor.
    + constructor; [|now apply IH].
      intros Hin. apply increment_keys in Hin as [->|Hin]; [|contradiction].
      now rewrite eqb_refl in E.
Qed.

Lemma conversationCounts_distinct (rows : list (Id * bool)) :
  NoDup (map fst (ConversationList.conversationCounts rows)).
Proof.
  unfold ConversationList.conversationCounts.
  assert (G : forall acc,
             NoDup (map fst acc) ->
             NoDup (map fst (fold_left
                               (fun counts p =>
                                  if negb (snd p)
                                  then ConversationList.increment (fst p) counts
                                  else counts) rows acc))).
  { induction rows as [|[j g] rows IH]; intros acc H; simpl; [exact H|].
    apply IH. destruct g; simpl; [exact H | now apply increment_distinct]. }
  apply G. constructor.
Qed.

Lemma countOf_entry (k : Id) (v : nat) (counts : list (Id * nat)) :
  NoDup (map fst counts) -> In (k, v) counts -> countOf k counts = v.
Proof.
  unfold countOf.
  induction counts as [|[j w] counts IH]; simpl; intros Hd Hin; [contradiction|].
  apply NoDup_cons_iff in Hd as [Hj Hd].
  destruct Hin as [E|Hin].
  - injection E as -> ->. now rewrite eqb_refl.
  - destruct (Js.eqb j k) eqn:E; [|now apply IH].
    apply eqb_eq in E. subst j. exfalso. apply Hj.
    now apply (in_map fst) in Hin.
Qed.

Lemma countOf_two_found (k : Id) (counts : list (Id * nat)) :
  countOf k counts = 2 -> ConversationList.findExisting counts <> None.
Proof.
  unfold countOf, ConversationList.findExisting. intros H.
  destruct (find (fun kv => Js.eqb (fst kv) k) counts) as [kv|] eqn:E;
    [|discriminate].
  apply find_some in E as [Hin _].
  destruct (find (fun kv => Nat.eqb (snd kv) 2) counts) eqn:F; [discriminate|].
  apply (find_none _ _ F) in Hin. apply Nat.eqb_neq in Hin.
  exfalso. apply Hin. exact H.
Qed.

(** X16.  The search of [startDirectChat] tallies, per conversation,
    the non-group participant rows of the two users.  The conversation
    it reuses has exactly two such rows and is stored as a non-group
    conversation, so a group is never reused; and it finds none exactly
    when no conversation has exactly two such rows. *)
Theorem existingDirectChat_counts_pair_rows (me other : Id) (s : Db.Store) :
  let rows := Db.pairParticipants me other s in
  (forall cid,
      existingDirectChat me other s = Some cid ->
      nonGroupRows cid rows = 2
      /\ exists c, Db.findConversation s cid = Some c
                   /\ Db.conv_is_group c = false)
  /\ (existingDirectChat me other s = None
      <-> forall k, nonGroupRows k rows <> 2).
Proof.
  intros rows. unfold existingDirectChat. fold rows. split.
  - intros cid Hfound.
    assert (Htwo : nonGroupRows cid rows = 2).
    { rewrite <- countOf_conversationCounts.
      apply countOf_entry; [apply conversationCounts_distinct|].
      now apply findExisting_key. }
    split; [exact Htwo|].
    unfold nonGroupRows in Htwo.
    destruct (filter (fun r => Js.eqb (fst r) cid && negb (snd r)) rows)
      as [|[j g] l] eqn:F; [discriminate|].
    assert (Hin : In (j, g) (filter (fun r => Js.eqb (fst r) cid && negb (snd r)) rows))
      by (rewrite F; now left).
    apply filter_In in Hin as [Hin Hp]. simpl in Hp.
    apply andb_true_iff in Hp as [Hj Hg]. apply eqb_eq in Hj. subst j.
    apply negb_true_iff in Hg. subst g.
    unfold rows, Db.pairParticipants in Hin.
    apply in_flat_map in Hin as (p & _ & Hin).
    destruct (Js.eqb (Db.part_user_id p) me || Js.eqb (Db.part_user_id p) other);
      [|contradiction].
    destruct (Db.findConversation s (Db.part_conversation_id p)) as [c|] eqn:Hc;
      [|contradiction].
    destruct Hin as [E|[]]. injection E as E1 E2. rewrite E1 in Hc.
    exists c. now split.
  - split.
    + intros Hnone k Hk. rewrite <- countOf_conversationCounts in Hk.
      now apply countOf_two_found in Hk.
    + intros Hall.
      destruct (ConversationList.findExisting
                  (ConversationList.conversationCounts rows)) as [cid|] eqn:F;
        [|reflexivity].
      exfalso. apply (Hall cid). rewrite <- countOf_conversationCounts.
      apply countOf_entry; [apply conversationCounts_distinct|].
      now apply findExisting_key.
Qed.

Lemma existingDirectChat_counts_pair_rows_witness :
  let s := Sample.withMessages Sample.thread in
  existingDirectChat (user_id Sample.alice) Sample.bob s = Some Sample.direct
  /\ nonGroupRows Sample.direct
       (Db.pairParticipants (user_id Sample.alice) Sample.bob s) = 2.
Proof.
  intros s. split; [reflexivity|].
  exact (proj1 (proj1 (@existingDirectChat_counts_pair_rows
                         (user_id Sample.alice) Sample.bob s)
                      Sample.direct eq_refl)).
Defined.

(** A conversation row nobody takes part in does not change what the
    search returns. *)
Lemma pairParticipants_orphan (me other : Id) (s s' : Db.Store)
      (c : Db.ConversationRow) :
  ~ In (Db.conv_id c) (map fst (membership s)) ->
  membership s' = membership s ->
  Db.conversations s' = Db.conversations s ++ [c] ->
  Db.pairParticipants me other s' = Db.pairParticipants me other s.
Proof.
  intros Hfresh Hm Hc. rewrite !pairParticipants_membership, Hm.
  revert Hfresh. generalize (membership s) as l.
  induction l as [|k l IH]; simpl; intros Hfresh; [reflexivity|].
  rewrite IH by tauto. f_equal.
  match goal with
  | |- (if ?b then _ else _) = _ => destruct b; [|reflexivity]
  end.
  unfold Db.findConversation. rewrite Hc, find_app.
  destruct (find _ (Db.conversations s)); [reflexivity|].
  simpl.
  match goal with
  | |- context [Js.eqb (Db.conv_id c) ?x] =>
      destruct (Js.eqb (Db.conv_id c) x) eqn:E; [|reflexivity]
  end.
  apply eqb_eq in E. symmetry in E. tauto.
Qed.

Lemma findExisting_kept (rows : list (Id * bool)) (k cid : Id) :
  ~ In k (map fst rows) ->
  ConversationList.findExisting (ConversationList.conversationCounts rows)
  = Some cid ->
  ConversationList.findExisting
    (ConversationList.conversationCounts (rows ++ [(k, false); (k, false)]))
  = Some cid.
Proof.
  intros Hk Hfound.
  assert (Hkeys : ~ In k (map fst (ConversationList.conversationCounts rows))).
  { intros H. apply Hk. now apply conversationCounts_keys. }
  unfold ConversationList.conversationCounts in *.
  rewrite fold_left_app. simpl.
  rewrite (increment_new _ _ Hkeys), (increment_last _ _ _ Hkeys).
  unfold ConversationList.findExisting in *.
  rewrite find_app.
  destruct (find _ (fold_left _ rows [])); [exact Hfound | discriminate].
Qed.

(** X17.  When [startDirectChat] goes on to create a conversation and
    an insert fails, it raises the alert "Failed to start conversation: "
    followed by the error's message ("Unknown error" for an empty one)
    and leaves the list, the dialog and the selection as they were.
    A failing conversation insert stores nothing.  A failing
    participant insert leaves the conversation row stored just before
    in the store without participants; a store whose next id was
    unused answers the next search as before, so that row is never
    reused. *)
Theorem startDirectChat_failed_insert
        (user : User) (other : Id) (e : Env) (st : ConversationList.State)
        (reason : jsstring) :
  match fst (nextOutcome (outcomes e)) with
  | Succeeds => existingDirectChat (user_id user) other (store e) = None
  | Fails _ => True
  end ->
  let second := nextOutcome (snd (nextOutcome (outcomes e))) in
  let st1 := stateAfter (ConversationList.startDirectChat user other) e st in
  let e1 := envAfter (ConversationList.startDirectChat user other) e st in
  (fst second = Fails reason ->
   st1 = st /\ store e1 = store e
   /\ alerts e1 = alerts e ++ [startFailure reason])
  /\ (fst second = Succeeds ->
      fst (nextOutcome (snd second)) = Fails reason ->
      st1 = st
      /\ alerts e1 = alerts e ++ [startFailure reason]
      /\ Db.conversation_participants (store e1)
         = Db.conversation_participants (store e)
      /\ Db.conversations (store e1)
         = Db.conversations (store e)
           ++ [{| Db.conv_id := Db.uuid (Db.next_id (store e));
                  Db.conv_name := None; Db.conv_is_group := false;
                  Db.conv_updated_at := now e |}]
      /\ (nextIdFresh (store e) ->
          existingDirectChat (user_id user) other (store e1)
          = existingDirectChat (user_id user) other (store e)))
  /\ startFailure [] = Js.u "Failed to start conversation: Unknown error".
Proof.
  intros Hcreate second st1 e1.
  unfold st1, e1, stateAfter, envAfter.
  rewrite (startDirectChat_goes_to_create user other e st Hcreate).
  split; [|split; [|reflexivity]].
  - intros Hfail.
    match goal with
    | |- context [ConversationList.createOrAlert user other (?e0, st)] =>
        exact (@createOrAlert_conversation_fails user other e0 st reason Hfail)
    end.
  - intros Hok Hfail.
    match goal with
    | |- context [ConversationList.createOrAlert user other (?e0, st)] =>
        destruct (@createOrAlert_participants_fail user other e0 st reason
                    Hok Hfail) as (Hst & Hs & Ha)
    end.
    unfold stateAfter, envAfter in Hst, Hs, Ha.
    rewrite Hst, Hs, Ha. simpl. repeat split.
    intros [_ Hfresh]. unfold existingDirectChat. f_equal. f_equal.
    eapply pairParticipants_orphan; [| |reflexivity]; [exact Hfresh | reflexivity].
Qed.

Lemma startDirectChat_failed_insert_witness :
  let e := Sample.env (Sample.withMessages Sample.thread)
                      [Succeeds; Succeeds; Fails []] in
  let carol := Js.u "ca701" in
  match fst (nextOutcome (outcomes e)) with
  | Succeeds => existingDirectChat (user_id Sample.alice) carol (store e) = None
  | Fails _ => True
  end
  /\ stateAfter (ConversationList.startDirectChat Sample.alice carol)
                e Sample.loaded = Sample.loaded
  /\ alerts (envAfter (ConversationList.startDirectChat Sample.alice carol)
                      e Sample.loaded)
     = [Js.u "Failed to start conversation: Unknown error"].
Proof.
  intros e carol.
  assert (H : match fst (nextOutcome (outcomes e)) with
              | Succeeds =>
                  existingDirectChat (user_id Sample.alice) carol (store e) = None
              | Fails _ => True
              end) by reflexivity.
  split; [exact H|].
  destruct (proj1 (proj2 (@startDirectChat_failed_insert Sample.alice carol e
                            Sample.loaded [] H)) eq_refl eq_refl)
    as (H1 & H2 & _).
  split; [exact H1 | exact H2].
Defined.

(** X18.  When the search request itself fails, [startDirectChat] does
    not notice an existing direct conversation: with the remaining
    requests succeeding it stores and selects a second conversation of
    the same two users, beside the existing one, and the next search
    again returns the older one, not the one just selected. *)
Theorem startDirectChat_failed_search_duplicates
        (user : User) (other cid : Id) (e : Env)
        (st : ConversationList.State) (reason : jsstring) :
  fst (nextOutcome (outcomes e)) = Fails reason ->
  Forall (fun o => o = Succeeds) (snd (nextOutcome (outcomes e))) ->
  nextIdFresh (store e) ->
  existingDirectChat (user_id user) other (store e) = Some cid ->
  let created := Db.uuid (Db.next_id (store e)) in
  let st1 := stateAfter (ConversationList.startDirectChat user other) e st in
  let e1 := envAfter (ConversationList.startDirectChat user other) e st in
  ConversationList.selectedConversation st1 = Some created
  /\ created <> cid
  /\ membership (store e1)
     = membership (store e) ++ [(created, user_id user); (created, other)]
  /\ Db.conversations (store e1)
     = Db.conversations (store e)
       ++ [{| Db.conv_id := created; Db.conv_name := None;
              Db.conv_is_group := false; Db.conv_updated_at := now e |}]
  /\ existingDirectChat (user_id user) other (store e1) = Some cid.
Proof.
  intros Hfail Hrest Hfresh Hfound created st1 e1.
  unfold st1, e1, stateAfter, envAfter.
  rewrite startDirectChat_goes_to_create by (now rewrite Hfail).
  match goal with
  | |- context [ConversationList.createOrAlert user other (?e0, st)] =>
      destruct (@createOrAlert_reliable user other e0 st Hrest)
        as (e2 & st2 & -> & Hsel & Hm & Hc)
  end.
  simpl in *. fold created in Hsel, Hm, Hc.
  assert (Hkey : In cid (map fst (membership (store e)))).
  { pose proof (findExisting_key _ Hfound) as Hin.
    apply (in_map fst) in Hin. simpl in Hin.
    now apply conversationCounts_keys, pairParticipants_keys in Hin. }
  repeat split; trivial.
  - intros E. apply (proj2 Hfresh). fold created. now rewrite E.
  - unfold existingDirectChat in *.
    rewrite (@pairParticipants_after_create _ _ _ _ _ Hfresh Hm Hc).
    apply findExisting_kept; [|exact Hfound].
    intros Hin. apply pairParticipants_keys in Hin.
    now apply (proj2 Hfresh).
Qed.

Lemma startDirectChat_failed_search_duplicates_witness :
  let e := Sample.env (Sample.withMessages Sample.thread)
                      [Fails (Js.u "network")] in
  fst (nextOutcome (outcomes e)) = Fails (Js.u "network")
  /\ Forall (fun o => o = Succeeds) (snd (nextOutcome (outcomes e)))
  /\ nextIdFresh (store e)
  /\ existingDirectChat (user_id Sample.alice) Sample.bob (store e)
     = Some Sample.direct
  /\ ConversationList.selectedConversation
       (stateAfter (ConversationList.startDirectChat Sample.alice Sample.bob)
                   e Sample.loaded)
     = Some (Db.uuid 40).
Proof.
  intros e.
  assert (H2 : Forall (fun o => o = Succeeds) (snd (nextOutcome (outcomes e))))
    by constructor.
  assert (H3 : nextIdFresh (store e)) by (split; simpl; intuition discriminate).
  split; [reflexivity|]. split; [exact H2|]. split; [exact H3|].
  split; [reflexivity|].
  exact (proj1 (@startDirectChat_failed_search_duplicates Sample.alice Sample.bob
                  Sample.direct e Sample.loaded (Js.u "network")
                  eq_refl H2 H3 eq_refl)).
Defined.

(** ** Live updates that change nothing *)

Lemma map_patch_absent (cid : Id)
      (patch : ConversationList.Conversation -> ConversationList.Conversation)
      (l : list ConversationList.Conversation) :
  ~ In cid (map ConversationList.id l) ->
  map (fun conv => if Js.eqb (ConversationList.id conv) cid
                   then patch conv else conv) l = l.
Proof.
  induction l as [|c l IH]; simpl; intros H; [reflexivity|].
  destruct (Js.eqb (ConversationList.id c) cid) eqn:E.
  - apply eqb_eq in E. tauto.
  - f_equal. apply IH. tauto.
Qed.

(** X19.  The live-update handler sends no request in any case.  It
    leaves the state as it is for a message the current user sent, and
    for a message of a conversation that is not in the list: a
    conversation started by somebody else does not appear through this
    handler. *)
Theorem onMessageInsert_ignores_own_and_unlisted
        (user : User) (new : Db.MessageRow) (e : Env)
        (st : ConversationList.State) :
  envAfter (ConversationList.onMessageInsert user new) e st = e
  /\ (Db.row_sender_id new = user_id user ->
      stateAfter (ConversationList.onMessageInsert user new) e st = st)
  /\ (~ In (Db.row_conversation_id new) (displayedOrder st) ->
      stateAfter (ConversationList.onMessageInsert user new) e st = st).
Proof.
  unfold envAfter, stateAfter, ConversationList.onMessageInsert, displayedOrder.
  destruct (Js.eqb (Db.row_sender_id new) (user_id user)) eqn:E; simpl.
  - repeat split.
  - split; [reflexivity|]. split.
    + intros H. apply eqb_neq in E. contradiction.
    + intros H. unfold setState, ConversationList.setConversations. simpl.
      rewrite (map_patch_absent _ _ _ H). now destruct st.
Qed.

Lemma onMessageInsert_ignores_own_and_unlisted_witness :
  let new := Sample.row "n1" "fresh-conversation" "b0b" "hi alice" 60 in
  let e := Sample.env (Sample.withMessages (Sample.thread ++ [new])) [] in
  ~ In (Db.row_conversation_id new) (displayedOrder Sample.loaded)
  /\ stateAfter (ConversationList.onMessageInsert Sample.alice new) e Sample.loaded
     = Sample.loaded.
Proof.
  intros new e.
  assert (H : ~ In (Db.row_conversation_id new) (displayedOrder Sample.loaded)).
  { simpl. intuition discriminate. }
  split; [exact H|].
  exact (proj2 (proj2 (@onMessageInsert_ignores_own_and_unlisted Sample.alice
                         new e Sample.loaded)) H).
Defined.

Lemma toggleUserSelection_flips_witness :
  let st := ConversationList.setSelectedUsers (fun _ => [Sample.bob])
                                               Sample.loaded in
  ~ In (Js.u "ca701") (ConversationList.selectedUsers st)
  /\ ConversationList.selectedUsers
       (ConversationList.toggleUserSelection (Js.u "ca701")
          (ConversationList.toggleUserSelection (Js.u "ca701") st))
     = ConversationList.selectedUsers st.
Proof.
  intros st.
  assert (H : ~ In (Js.u "ca701") (ConversationList.selectedUsers st)).
  { simpl. intuition discriminate. }
  split; [exact H|].
  exact (proj1 (proj2 (proj2 (proj2
    (@toggleUserSelection_flips (Js.u "ca701") st)))) H).
Defined.

Lemma enrich_isolates_failures_witness :
  let e := Sample.env (Sample.withMessages Sample.thread)
                      [Fails (Js.u "roster")] in
  let item :=
    (Sample.participant Sample.direct (user_id Sample.alice) (Some 15%Z),
     {| Db.conv_id := Sample.direct; Db.conv_name := None;
        Db.conv_is_group := false; Db.conv_updated_at := 5 |}) in
  fst (ConversationList.enrich Sample.alice item (e, Sample.loaded)) = None
  /\ trace (envAfter (ConversationList.enrich Sample.alice item) e Sample.loaded)
     = trace e ++ [SelectRoster Sample.direct].
Proof.
  intros e item. split; [reflexivity|].
  exact (proj1 (proj2 (proj2 (proj2
    (@enrich_isolates_failures Sample.alice item e Sample.loaded)))) eq_refl).
Defined.

Lemma handleSelectConversation_always_selects_witness :
  let e := Sample.env (Sample.withMessages Sample.thread)
                      [Fails (Js.u "permission denied")] in
  fst (nextOutcome (outcomes e)) = Fails (Js.u "permission denied")
  /\ ConversationList.selectedConversation
       (stateAfter (ConversationList.handleSelectConversation
                      Sample.alice GLOBAL_CONVERSATION_ID) e Sample.loaded)
     = Some GLOBAL_CONVERSATION_ID.
Proof.
  intros e. split; [reflexivity|].
  exact (proj1 (@handleSelectConversation_always_selects Sample.alice
                  GLOBAL_CONVERSATION_ID e Sample.loaded)).
Defined.

(** ** Two ticks of the poll timer *)

(** X20.  Two ticks in a row, with no failing request: when the first
    tick counted at least one row and the second counts more, the
    second tick reloads and the thread shows the store as it is then,
    whatever count was held before the first tick; when the second
    counts no more than the first, the second tick leaves the list as
    the first left it.  After each tick the held count is the count
    just read. *)
Theorem pollTick_twice_reloads_on_growth
        (cid : Id) (e1 e2 : Env) (st : Chat.State) :
  reliable e1 ->
  reliable e2 ->
  let n1 := length (Db.messagesOf cid (store e1)) in
  let n2 := length (Db.messagesOf cid (store e2)) in
  let st1 := stateAfter (Chat.pollTick cid) e1 st in
  let st2 := stateAfter (Chat.pollTick cid) e2 st1 in
  Chat.lastMessageCount st1 = n1
  /\ Chat.lastMessageCount st2 = n2
  /\ (0 < n1 -> n1 < n2 ->
      Chat.messages st2 = Chat.selectMessages cid (store e2))
  /\ (n2 <= n1 -> Chat.messages st2 = Chat.messages st1).
Proof.
  intros He1 He2 n1 n2 st1 st2.
  assert (H1 : Chat.lastMessageCount st1 = n1).
  { unfold st1. rewrite (pollTick_state cid st He1). reflexivity. }
  split; [exact H1|].
  unfold st2. rewrite (pollTick_state cid st1 He2). fold n2. rewrite H1.
  split; [reflexivity|]. split.
  - intros Hpos Hgrow. apply Nat.ltb_lt in Hpos, Hgrow.
    rewrite Hpos, Hgrow. reflexivity.
  - intros Hle. apply Nat.ltb_ge in Hle. rewrite Hle, andb_false_r. reflexivity.
Qed.

Lemma pollTick_twice_reloads_on_growth_witness :
  let e1 := Sample.env (Sample.withMessages Sample.thread) [] in
  let e2 := Sample.env (Sample.withMessages
                          (Sample.thread
                             ++ [Sample.row "m4" "c0ffee" "b0b" "ping" 40])) [] in
  reliable e1 /\ reliable e2
  /\ 0 < length (Db.messagesOf Sample.direct (store e1))
  /\ length (Db.messagesOf Sample.direct (store e1))
     < length (Db.messagesOf Sample.direct (store e2))
  /\ Chat.messages
       (stateAfter (Chat.pollTick Sample.direct) e2
                   (stateAfter (Chat.pollTick Sample.direct) e1 Chat.initial))
     = Chat.selectMessages Sample.direct (store e2).
Proof.
  intros e1 e2.
  assert (Ha : 0 < length (Db.messagesOf Sample.direct (store e1)))
    by (simpl; lia).
  assert (Hb : length (Db.messagesOf Sample.direct (store e1))
               < length (Db.messagesOf Sample.direct (store e2)))
    by (simpl; lia).
  split; [apply reliable_sample|]. split; [apply reliable_sample|].
  split; [exact Ha|]. split; [exact Hb|].
  exact (proj1 (proj2 (proj2
    (@pollTick_twice_reloads_on_growth Sample.direct e1 e2 Chat.initial
       (reliable_sample _) (reliable_sample _)))) Ha Hb).
Defined.

(** ** The other participant of a direct conversation *)

(** X21.  The entry built for a conversation never names the current
    user as its other participant: when [otherUserId] is set, it is
    the id of a profile on the conversation's roster other than the
    current user's, the conversation is not a group and its roster has
    exactly two rows. *)
Theorem enrich_other_user_is_not_me
        (user : User) (item : Db.ParticipantRow * Db.ConversationRow)
        (e : Env) (st : ConversationList.State)
        (conv : ConversationList.Conversation) (uid : Id) :
  fst (ConversationList.enrich user item (e, st)) = Some conv ->
  ConversationList.otherUserId conv = Some uid ->
  uid <> user_id user
  /\ In uid (map (fun p => Db.profile_id (snd p))
                 (Db.roster (Db.conv_id (snd item)) (store e)))
  /\ ConversationList.is_group conv = false
  /\ ConversationList.participantCount conv = 2.
Proof.
  unfold ConversationList.enrich, bind, query, request. simpl.
  destruct (nextOutcome (outcomes e)) as [[|reason] rest]; simpl;
    [|discriminate].
  destruct (nextOutcome rest) as [[|reason] rest']; simpl;
    intros E; injection E as <-; simpl;
    (destruct (Db.conv_is_group (snd item)); simpl; [discriminate|];
     destruct (Nat.eqb (length (Db.roster (Db.conv_id (snd item)) (store e))) 2)
       eqn:Hlen; [|discriminate];
     destruct (find _ (Db.roster (Db.conv_id (snd item)) (store e)))
       as [p|] eqn:F; simpl; [|discriminate];
     intros Hp; injection Hp as <-;
     apply find_some in F as [Hin Hne];
     apply negb_true_iff, eqb_neq in Hne;
     repeat split;
     [exact Hne | now apply (in_map (fun p => Db.profile_id (snd p)))
      | now apply Nat.eqb_eq]).
Qed.

Lemma enrich_other_user_is_not_me_witness :
  let e := Sample.env (Sample.withMessages Sample.thread) [] in
  let item :=
    (Sample.participant Sample.direct (user_id Sample.alice) (Some 15%Z),
     {| Db.conv_id := Sample.direct; Db.conv_name := None;
        Db.conv_is_group := false; Db.conv_updated_at := 5 |}) in
  exists conv,
    fst (ConversationList.enrich Sample.alice item (e, Sample.loaded)) = Some conv
    /\ ConversationList.otherUserId conv = Some Sample.bob
    /\ Sample.bob <> user_id Sample.alice.
Proof.
  intros e item. eexists. split; [reflexivity|]. split; [reflexivity|].
  exact (proj1 (@enrich_other_user_is_not_me Sample.alice item e Sample.loaded
                  _ Sample.bob eq_refl eq_refl)).
Defined.

(** ** Two calls of [startDirectChat] in a row *)

(** The conversation the search returns has exactly two non-group rows
    of the pair and is stored as a non-group conversation. *)
Lemma existing_found_nongroup (me other cid : Id) (s : Db.Store) :
  existingDirectChat me other s = Some cid ->
  nonGroupRows cid (Db.pairParticipants me other s) = 2
  /\ exists c, Db.findConversation s cid = Some c /\ Db.conv_is_group c = false.
Proof.
  unfold existingDirectChat. intros Hfound.
  set (rows := Db.pairParticipants me other s) in *.
  assert (Htwo : nonGroupRows cid rows = 2).
  { rewrite <- countOf_conversationCounts.
    apply countOf_entry; [apply conversationCounts_distinct|].
    now apply findExisting_key. }
  split; [exact Htwo|].
  assert (Hrow : In (cid, false) rows).
  { unfold nonGroupRows in Htwo.
    destruct (filter (fun r => Js.eqb (fst r) cid && negb (snd r)) rows)
      as [|[j g] l] eqn:F; [discriminate|].
    assert (Hin : In (j, g)
                     (filter (fun r => Js.eqb (fst r) cid && negb (snd r)) rows))
      by (rewrite F; now left).
    apply filter_In in Hin as [Hin Hp]. simpl in Hp.
    apply andb_true_iff in Hp as [Hj Hg]. apply eqb_eq in Hj.
    apply negb_true_iff in Hg. now subst. }
  unfold rows, Db.pairParticipants in Hrow.
  apply in_flat_map in Hrow as (p & _ & Hin).
  destruct (Js.eqb (Db.part_user_id p) me || Js.eqb (Db.part_user_id p) other);
    [|contradiction].
  destruct (Db.findConversation s (Db.part_conversation_id p)) as [c|] eqn:Hc;
    [|contradiction].
  destruct Hin as [E|[]]. injection E as E1 E2. rewrite E1 in Hc.
  exists c. now split.
Qed.

(** Each non-group row of a conversation in the search comes from one
    participant row of that conversation and of one of the two users. *)
Lemma pair_rows_bounded (me other cid : Id) (s : Db.Store) :
  nonGroupRows cid (Db.pairParticipants me other s)
  <= length (filter (fun k => Js.eqb (fst k) cid
                              && (Js.eqb (snd k) me || Js.eqb (snd k) other))
                    (membership s)).
Proof.
  rewrite pairParticipants_membership. unfold nonGroupRows.
  generalize (membership s) as l.
  induction l as [|k l IH]; [simpl; lia|].
  change (k :: l) with ([k] ++ l).
  rewrite flat_map_app, !filter_app, !length_app.
  apply Nat.add_le_mono; [|exact IH].
  simpl. rewrite app_nil_r. unfold Id, jsstring in *.
  destruct (Js.eqb (snd k) me || Js.eqb (snd k) other).
  - rewrite andb_true_r.
    destruct (Db.findConversation s (fst k)) as [c|]; simpl.
    + destruct (Js.eqb (fst k) cid); simpl; [|lia].
      destruct (Db.conv_is_group c); simpl; lia.
    + destruct (Js.eqb (fst k) cid); simpl; lia.
  - simpl. lia.
Qed.

Lemma two_of_a_pair (a b : Id * Id) (f : list (Id * Id)) :
  NoDup f ->
  (forall x, In x f -> x = a \/ x = b) ->
  2 <= length f ->
  In a f /\ In b f.
Proof.
  intros Hd Hall Hlen.
  destruct f as [|x [|y f']]; simpl in Hlen; try lia.
  apply NoDup_cons_iff in Hd as [Hx _].
  assert (Hxy : x <> y) by (intros ->; apply Hx; now left).
  pose proof (Hall x (or_introl eq_refl)) as Ex.
  pose proof (Hall y (or_intror (or_introl eq_refl))) as Ey.
  destruct Ex as [Ex|Ex], Ey as [Ey|Ey]; subst; try congruence;
    split; simpl; auto.
Qed.

(** With participant rows unique per conversation and user, two rows of
    the pair in one conversation mean that both users take part. *)
Lemma both_take_part (me other cid : Id) (s : Db.Store) :
  NoDup (membership s) ->
  nonGroupRows cid (Db.pairParticipants me other s) = 2 ->
  In (cid, me) (membership s) /\ In (cid, other) (membership s).
Proof.
  intros Hd Htwo.
  pose proof (pair_rows_bounded me other cid s) as Hle. rewrite Htwo in Hle.
  set (f := filter (fun k => Js.eqb (fst k) cid
                             && (Js.eqb (snd k) me || Js.eqb (snd k) other))
                   (membership s)) in *.
  destruct (@two_of_a_pair (cid, me) (cid, other) f) as [Ha Hb].
  - now apply NoDup_filter.
  - intros [j u] Hin. apply filter_In in Hin as [_ Hp]. simpl in Hp.
    apply andb_true_iff in Hp as [Hj Hu]. apply eqb_eq in Hj. subst j.
    apply orb_true_iff in Hu as [Hu|Hu]; apply eqb_eq in Hu; subst u; auto.
  - exact Hle.
  - split; [apply filter_In in Ha | apply filter_In in Hb]; tauto.
Qed.

(** C7 (as amended).  With a store none of whose requests fails, whose
    next id is unused and whose conversation ids are non-empty, two
    calls of [startDirectChat] for the same user, one after the other,
    select the same conversation.  The search of the second call finds
    it: it has exactly two non-group participant rows of the pair, it
    is stored as a non-group conversation, and, participant rows being
    unique per conversation and user, both users take part in it.  The
    second call reuses it, inserting no conversation and no participant
    row. *)
Theorem startDirectChat_twice_same_conversation
        (user : User) (other : Id) (e : Env) (st : ConversationList.State) :
  reliable e ->
  nextIdFresh (store e) ->
  conversationIdsNonEmpty (store e) ->
  let w1 := snd (ConversationList.startDirectChat user other (e, st)) in
  let w2 := snd (ConversationList.startDirectChat user other w1) in
  exists cid,
    ConversationList.selectedConversation (snd w1) = Some cid
    /\ ConversationList.selectedConversation (snd w2) = Some cid
    /\ existingDirectChat (user_id user) other (store (fst w1)) = Some cid
    /\ nonGroupRows cid
         (Db.pairParticipants (user_id user) other (store (fst w1))) = 2
    /\ (exists c, Db.findConversation (store (fst w1)) cid = Some c
                  /\ Db.conv_is_group c = false)
    /\ (NoDup (membership (store e)) ->
        In (cid, user_id user) (membership (store (fst w1)))
        /\ In (cid, other) (membership (store (fst w1))))
    /\ Db.conversations (store (fst w2)) = Db.conversations (store (fst w1))
    /\ membership (store (fst w2)) = membership (store (fst w1)).
Proof.
  intros He Hfresh Hids w1 w2.
  assert (Hsecond :
            forall cid e1 st1,
              w1 = (e1, st1) -> reliable e1 ->
              ConversationList.selectedConversation st1 = Some cid ->
              existingDirectChat (user_id user) other (store e1) = Some cid ->
              Js.truthy cid = true ->
              (NoDup (membership (store e)) ->
               In (cid, user_id user) (membership (store e1))
               /\ In (cid, other) (membership (store e1))) ->
              exists c,
                ConversationList.selectedConversation (snd w1) = Some c
                /\ ConversationList.selectedConversation (snd w2) = Some c
                /\ existingDirectChat (user_id user) other (store (fst w1)) = Some c
                /\ nonGroupRows c
                     (Db.pairParticipants (user_id user) other (store (fst w1))) = 2
                /\ (exists r, Db.findConversation (store (fst w1)) c = Some r
                              /\ Db.conv_is_group r = false)
                /\ (NoDup (membership (store e)) ->
                    In (c, user_id user) (membership (store (fst w1)))
                    /\ In (c, other) (membership (store (fst w1))))
                /\ Db.conversations (store (fst w2)) = Db.conversations (store (fst w1))
                /\ membership (store (fst w2)) = membership (store (fst w1))).
  { intros cid e1 st1 Hw1 He1 Hsel Hex Ht Hboth.
    destruct (@startDirectChat_reuses user other cid e1 st1 He1 Hex Ht)
      as (e2 & st2 & Hrun & _ & Hsel2 & Hm2 & Hc2).
    destruct (existing_found_nongroup _ _ _ Hex) as [Htwo Hng].
    exists cid. unfold w2. rewrite Hw1, Hrun. simpl.
    split; [exact Hsel|]. split; [exact Hsel2|]. split; [exact Hex|].
    split; [exact Htwo|]. split; [exact Hng|]. split; [exact Hboth|].
    split; assumption. }
  destruct (existingDirectChat (user_id user) other (store e)) as [cid|] eqn:Hex.
  - assert (Ht : Js.truthy cid = true).
    { unfold conversationIdsNonEmpty in Hids. rewrite Forall_forall in Hids.
      pose proof (findExisting_key _ Hex) as Hin.
      apply (in_map fst) in Hin. simpl in Hin.
      apply conversationCounts_keys, pairParticipants_keys in Hin.
      apply in_map_iff in Hin as (k & <- & Hk). now apply Hids. }
    destruct (@startDirectChat_reuses user other cid e st He Hex Ht)
      as (e1 & st1 & Hrun & He1 & Hsel & Hm & Hc).
    apply (Hsecond cid e1 st1); trivial.
    + unfold w1. now rewrite Hrun.
    + unfold existingDirectChat in *.
      now rewrite (pairParticipants_same _ _ _ _ Hm Hc).
    + intros Hd. rewrite Hm. apply both_take_part; [exact Hd|].
      now apply existing_found_nongroup.
  - destruct (@startDirectChat_creates user other e st He Hex)
      as (e1 & st1 & Hrun & He1 & Hsel & Hm & Hc).
    apply (Hsecond (Db.uuid (Db.next_id (store e))) e1 st1); trivial.
    + unfold w1. now rewrite Hrun.
    + unfold existingDirectChat in *.
      rewrite (@pairParticipants_after_create _ _ _ _ _ Hfresh Hm Hc).
      apply findExisting_after_pair; [|exact Hex].
      intros Hin. apply pairParticipants_keys in Hin.
      now apply (proj2 Hfresh).
    + intros _. rewrite Hm. split; apply in_or_app; right; simpl; auto.
Qed.

Lemma startDirectChat_twice_same_conversation_witness :
  let e := Sample.env (Sample.withMessages Sample.thread) [] in
  let carol := Js.u "ca701" in
  let w1 := snd (ConversationList.startDirectChat Sample.alice carol
                   (e, Sample.loaded)) in
  let w2 := snd (ConversationList.startDirectChat Sample.alice carol w1) in
  reliable e
  /\ nextIdFresh (store e)
  /\ conversationIdsNonEmpty (store e)
  /\ ConversationList.selectedConversation (snd w1) = Some (Db.uuid 40)
  /\ ConversationList.selectedConversation (snd w2) = Some (Db.uuid 40)
  /\ exists cid,
      ConversationList.selectedConversation (snd w1) = Some cid
      /\ ConversationList.selectedConversation (snd w2) = Some cid
      /\ nonGroupRows cid
           (Db.pairParticipants (user_id Sample.alice) carol (store (fst w1))) = 2.
Proof.
  intros e carol w1 w2.
  assert (H1 : reliable e) by apply reliable_sample.
  assert (H2 : nextIdFresh (store e)).
  { split; simpl; intuition discriminate. }
  assert (H3 : conversationIdsNonEmpty (store e)).
  { repeat constructor. }
  split; [exact H1|]. split; [exact H2|]. split; [exact H3|].
  split; [reflexivity|]. split; [reflexivity|].
  destruct (@startDirectChat_twice_same_conversation Sample.alice carol e
              Sample.loaded H1 H2 H3) as (cid & Ha & Hb & _ & Hc & _).
  exists cid. split; [exact Ha|]. split; [exact Hb | exact Hc].
Defined.

(** C7 as first worded fails: alice and bob already share the direct
    conversation, the search request of the first call fails (its error
    is only logged) while every later request succeeds, so the first
    call stores and selects a new conversation; the search of the
    second call succeeds and selects the older one.  The two calls
    select different conversations. *)
Lemma startDirectChat_twice_differs_after_failed_search :
  let e := Sample.env (Sample.withMessages Sample.thread)
                      [Fails (Js.u "network")] in
  let w1 := snd (ConversationList.startDirectChat Sample.alice Sample.bob
                   (e, Sample.loaded)) in
  let w2 := snd (ConversationList.startDirectChat Sample.alice Sample.bob w1) in
  nextIdFresh (store e)
  /\ conversationIdsNonEmpty (store e)
  /\ NoDup (membership (store e))
  /\ ConversationList.selectedConversation (snd w1) = Some (Db.uuid 40)
  /\ ConversationList.selectedConversation (snd w2) = Some Sample.direct
  /\ Db.uuid 40 <> Sample.direct
  /\ alerts (fst w2) = [].
Proof.
  intros e w1 w2.
  split; [split; simpl; intuition discriminate|].
  split; [repeat constructor|].
  split; [repeat constructor; simpl; intuition discriminate|].
  vm_compute. repeat split; discriminate.
Qed.
